(** * AIDP MCP server: dispatch, resilient remote calls and response envelopes

    A shallow embedding of the request core of the server:
    [utils/errors.py], [utils/validators.py], [utils/formatters.py],
    [src/oci_client.py], [src/modules/storage.py] and [src/server.py].

    Conventions of the embedding.
    - A Python [dict] with string keys is a [gmap string Value]; JSON-like
      data is the inductive [Value].
    - A Python [float] is read as the rational number it denotes ([Q]);
      [round(x, 2)] is rounding of that rational to hundredths, ties to even.
    - A Python [str] is a [string]; [len] is [String.length].
    - Raising is a [Result]; code that talks to the SDK, the clock or the
      lazily built clients runs in the state monad [M] over a [World]. *)

From stdpp Require Import base strings list gmap pretty.
From Stdlib Require Import Ascii QArith Qround Qabs Lqa.

Close Scope Q_scope.
Local Open Scope Z_scope.
Set Warnings "-register-all".

(** ** Python values *)

Inductive Value : Type :=
| VNone
| VBool (b : bool)
| VInt (z : Z)
| VFloat (q : Q)
| VStr (s : string)
| VList (l : list Value)
| VDict (d : gmap string Value).

Abbreviation pydict := (gmap string Value).

(** [x is None] *)
Definition is_None (v : Value) : bool :=
  match v with VNone => true | _ => false end.

(** Truthiness of an [Optional[str]] as tested by [if request_id:]. *)
Definition truthy_str (s : option string) : bool :=
  match s with
  | Some (String _ _) => true
  | _ => false
  end.

(** Truthiness of a dict as tested by [if error.details:]. *)
Definition truthy_dict (d : pydict) : bool := negb (bool_decide (size d = 0%nat)).

(** ** utils/errors.py *)

Module errors.

(** The twelve subclasses of [AIDPError]; a value of [ErrorKind] stands for
    the class of the exception object. *)
Inductive ErrorKind : Type :=
| Authentication | Authorization | ResourceNotFound | ResourceAlreadyExists
| Validation | API | Configuration | Timeout | RateLimit | Network
| InvalidState | QuotaExceeded.

#[export] Instance ErrorKind_eq_dec : EqDecision ErrorKind.
Proof. solve_decision. Defined.

(** [self.__class__.__name__] *)
Definition class_name (k : ErrorKind) : string :=
  match k with
  | Authentication => "AuthenticationError"
  | Authorization => "AuthorizationError"
  | ResourceNotFound => "ResourceNotFoundError"
  | ResourceAlreadyExists => "ResourceAlreadyExistsError"
  | Validation => "ValidationError"
  | API => "APIError"
  | Configuration => "ConfigurationError"
  | Timeout => "TimeoutError"
  | RateLimit => "RateLimitError"
  | Network => "NetworkError"
  | InvalidState => "InvalidStateError"
  | QuotaExceeded => "QuotaExceededError"
  end.

(** Exceptions that are not taxonomy errors: the three exception classes of
    the SDK that [call_api] tells apart, and any other Python exception.
    [text] is what [str(e)] returns. *)
Inductive PyExc : Type :=
| ServiceError (status : Z) (code message text : string)
| ConnectTimeout (text : string)
| RequestException (cls text : string)
| OtherException (cls text : string).

Definition pyexc_class_name (e : PyExc) : string :=
  match e with
  | ServiceError _ _ _ _ => "ServiceError"
  | ConnectTimeout _ => "ConnectTimeout"
  | RequestException cls _ => cls
  | OtherException cls _ => cls
  end.

Definition pyexc_str (e : PyExc) : string :=
  match e with
  | ServiceError _ _ _ text => text
  | ConnectTimeout text => text
  | RequestException _ text => text
  | OtherException _ text => text
  end.

Record AIDPError : Type := mkAIDPError {
  kind : ErrorKind;
  message : string;
  details : pydict;
  original_error : option PyExc
}.

(** [AIDPError.__init__]: [self.details = details or {}]. *)
Definition init (k : ErrorKind) (msg : string) (dts : option pydict)
    (orig : option PyExc) : AIDPError :=
  {| kind := k; message := msg; details := default ∅ dts;
     original_error := orig |}.

(** [AIDPError.to_dict] *)
Definition to_dict (e : AIDPError) : pydict :=
  let result : pydict := {[ "type" := VStr (class_name (kind e));
                             "message" := VStr (message e) ]} in
  let result :=
    if truthy_dict (details e) then <["details" := VDict (details e)]> result
    else result in
  match original_error e with
  | Some o => <["original_error" := VStr (pyexc_str o)]> result
  | None => result
  end.

(** Any exception object. *)
Inductive PyException : Type :=
| ExAIDP (e : AIDPError)
| ExNative (e : PyExc).

Definition exc_class_name (e : PyException) : string :=
  match e with
  | ExAIDP a => class_name (kind a)
  | ExNative n => pyexc_class_name n
  end.

(** [str(error)]; [AIDPError.__init__] passes [message] to [Exception]. *)
Definition exc_str (e : PyException) : string :=
  match e with
  | ExAIDP a => message a
  | ExNative n => pyexc_str n
  end.

Inductive Result (A : Type) : Type :=
| Ok (a : A)
| Raise (e : PyException).
Arguments Ok {A} a.
Arguments Raise {A} e.

Definition raise_error {A} (k : ErrorKind) (msg : string) (dts : option pydict)
    (orig : option PyExc) : Result A :=
  Raise (ExAIDP (init k msg dts orig)).

End errors.
Import errors.

(** ** utils/validators.py *)

Module validators.

(** [field not in data or data[field] is None] *)
Definition field_missing (data : pydict) (field : string) : bool :=
  match data !! field with
  | None => true
  | Some v => is_None v
  end.

Definition validate_required_fields (data : pydict)
    (required_fields : list string) : Result unit :=
  let missing_fields := List.filter (field_missing data) required_fields in
  match missing_fields with
  | [] => Ok tt
  | _ :: _ =>
      raise_error Validation "Missing required fields"
        (Some {[ "missing_fields" := VList (VStr <$> missing_fields) ]}) None
  end.

(** Python string primitives used by [validate_bucket_name].
    [s.startswith(pre)] *)
Definition startswith (s pre : string) : bool := String.prefix pre s.

(** [s.endswith(suf)]: some tail of [s] is [suf]. *)
Fixpoint endswith (s suf : string) : bool :=
  String.eqb s suf ||
  match s with
  | EmptyString => false
  | String _ s' => endswith s' suf
  end.

(** [needle in hay] *)
Fixpoint str_contains (needle hay : string) : bool :=
  String.prefix needle hay ||
  match hay with
  | EmptyString => false
  | String _ hay' => str_contains needle hay'
  end.

Definition between (lo hi c : ascii) : bool :=
  (N_of_ascii lo <=? N_of_ascii c)%N && (N_of_ascii c <=? N_of_ascii hi)%N.

(** The character class [[a-zA-Z0-9._-]]. *)
Definition bucket_char (c : ascii) : bool :=
  between "a" "z" c || between "A" "Z" c || between "0" "9" c
  || Ascii.eqb c "." || Ascii.eqb c "_" || Ascii.eqb c "-".

Definition LF : ascii := ascii_of_nat 10.

(** The longest prefix of [s] made of class characters, and what follows. *)
Fixpoint span_class (cls : ascii → bool) (s : string) : string * string :=
  match s with
  | EmptyString => (EmptyString, EmptyString)
  | String c s' =>
      if cls c then
        let '(body, rest) := span_class cls s' in (String c body, rest)
      else (EmptyString, s)
  end.

(** [re.match(r"^[cls]+$", s)] without flags: one or more class characters
    from the start, then [$], which Python's [re] satisfies at the end of
    the string and also just before a newline that ends the string.  LF is
    not in a class used here, so the greedy split is the only candidate. *)
Definition re_match_class_plus (cls : ascii → bool) (s : string) : bool :=
  let '(body, rest) := span_class cls s in
  match body, rest with
  | String _ _, EmptyString => true
  | String _ _, String c EmptyString => Ascii.eqb c LF
  | _, _ => false
  end.

Definition validate_bucket_name (bucket_name : string) : Result unit :=
  if String.eqb bucket_name "" then
    raise_error Validation "Bucket name cannot be empty" None None
  else if (256 <? String.length bucket_name)%nat then
    raise_error Validation "Bucket name too long (max 256 characters)"
      (Some {[ "length" := VInt (Z.of_nat (String.length bucket_name)) ]}) None
  else if startswith bucket_name "." || endswith bucket_name "." then
    raise_error Validation "Bucket name cannot start or end with a period"
      None None
  else if str_contains ".." bucket_name then
    raise_error Validation "Bucket name cannot contain consecutive periods"
      None None
  else if negb (re_match_class_plus bucket_char bucket_name) then
    raise_error Validation "Bucket name contains invalid characters"
      (Some {[ "bucket_name" := VStr bucket_name;
               "allowed_characters" :=
                 VStr "alphanumeric, hyphen, underscore, period" ]}) None
  else Ok tt.

(** [validate_object_name] *)
Definition validate_object_name (object_name : string) : Result unit :=
  if String.eqb object_name "" then
    raise_error Validation "Object name cannot be empty" None None
  else if (1024 <? String.length object_name)%nat then
    raise_error Validation "Object name too long (max 1024 characters)"
      (Some {[ "length" := VInt (Z.of_nat (String.length object_name)) ]}) None
  else Ok tt.

(** The character class [[a-zA-Z0-9_-]]. *)
Definition name_char (c : ascii) : bool :=
  between "a" "z" c || between "A" "Z" c || between "0" "9" c
  || Ascii.eqb c "_" || Ascii.eqb c "-".

Definition validate_workspace_name (workspace_name : string) : Result unit :=
  if String.eqb workspace_name "" then
    raise_error Validation "Workspace name cannot be empty" None None
  else if (100 <? String.length workspace_name)%nat then
    raise_error Validation "Workspace name too long (max 100 characters)"
      (Some {[ "length" := VInt (Z.of_nat (String.length workspace_name)) ]})
      None
  else if negb (re_match_class_plus name_char workspace_name) then
    raise_error Validation "Workspace name contains invalid characters"
      (Some {[ "workspace_name" := VStr workspace_name;
               "allowed_characters" :=
                 VStr "alphanumeric, hyphen, underscore" ]}) None
  else Ok tt.

Definition validate_cluster_name (cluster_name : string) : Result unit :=
  if String.eqb cluster_name "" then
    raise_error Validation "Cluster name cannot be empty" None None
  else if (100 <? String.length cluster_name)%nat then
    raise_error Validation "Cluster name too long (max 100 characters)"
      (Some {[ "length" := VInt (Z.of_nat (String.length cluster_name)) ]})
      None
  else if negb (re_match_class_plus name_char cluster_name) then
    raise_error Validation "Cluster name contains invalid characters"
      (Some {[ "cluster_name" := VStr cluster_name;
               "allowed_characters" :=
                 VStr "alphanumeric, hyphen, underscore" ]}) None
  else Ok tt.




Definition validate_enum (value : string) (valid_values : list string)
    (field_name : string) : Result string :=
  if bool_decide (value ∈ valid_values) then Ok value
  else
    raise_error Validation ("Invalid " +:+ field_name)
      (Some {[ "value" := VStr value;
               "valid_values" := VList (VStr <$> valid_values) ]}) None.

End validators.

(** ** utils/formatters.py *)

Module formatters.

(** Rounding of a rational to the nearest integer, ties to even. *)
Definition round_half_even (q : Q) : Z :=
  let f := Qfloor q in
  match Qcompare (q - inject_Z f)%Q (1 # 2)%Q with
  | Lt => f
  | Gt => f + 1
  | Eq => if Z.even f then f else f + 1
  end.

(** [round(x, 2)] *)
Definition round2 (x : Q) : Q :=
  Qred (Qmake (round_half_even (x * inject_Z 100)%Q) 100).

(** [format_success_response]; [now] is the string that [format_timestamp()]
    returns when the envelope is built. *)
Definition format_success_response (now : string) (data : Value)
    (request_id : option string) (execution_time_ms : option Q) : pydict :=
  let metadata : pydict := {[ "timestamp" := VStr now ]} in
  let metadata :=
    match request_id with
    | Some rid =>
        if truthy_str request_id then <["request_id" := VStr rid]> metadata
        else metadata
    | None => metadata
    end in
  let metadata :=
    match execution_time_ms with
    | Some t => <["execution_time_ms" := VFloat (round2 t)]> metadata
    | None => metadata
    end in
  {[ "success" := VBool true; "data" := data; "metadata" := VDict metadata ]}.

Definition isinstance_AIDPError (error : PyException) : option AIDPError :=
  match error with
  | ExAIDP a => Some a
  | ExNative _ => None
  end.

(** [format_error_response] *)
Definition format_error_response (now : string) (error : PyException)
    (request_id : option string) (include_traceback : bool) : pydict :=
  let error_data : pydict := {[ "type" := VStr (exc_class_name error);
                                 "message" := VStr (exc_str error) ]} in
  let error_data :=
    match isinstance_AIDPError error with
    | Some a =>
        let error_data :=
          if truthy_dict (details a)
          then <["details" := VDict (details a)]> error_data
          else error_data in
        match original_error a with
        | Some o =>
            if include_traceback
            then <["original_error" := VStr (pyexc_str o)]> error_data
            else error_data
        | None => error_data
        end
    | None => error_data
    end in
  let metadata : pydict := {[ "timestamp" := VStr now ]} in
  let metadata :=
    match request_id with
    | Some rid =>
        if truthy_str request_id then <["request_id" := VStr rid]> metadata
        else metadata
    | None => metadata
    end in
  {[ "success" := VBool false; "error" := VDict error_data;
     "metadata" := VDict metadata ]}.

(** [l[:k]]: a negative [k] counts from the end. *)
Definition slice_to {A} (k : Z) (l : list A) : list A :=
  if k <? 0 then take (Z.to_nat (Z.of_nat (length l) + k)) l
  else take (Z.to_nat k) l.

Fixpoint str_take (n : nat) (s : string) : string :=
  match n, s with
  | S n', String c s' => String c (str_take n' s')
  | _, _ => EmptyString
  end.

(** [s[:k]] on a string. *)
Definition str_slice_to (k : Z) (s : string) : string :=
  if k <? 0 then str_take (Z.to_nat (Z.of_nat (String.length s) + k)) s
  else str_take (Z.to_nat k) s.

(** [format_list_response] *)
Definition format_list_response (items : list Value)
    (total_count page page_size : option Z) : pydict :=
  let data : pydict := {[ "items" := VList items;
                           "count" := VInt (Z.of_nat (length items)) ]} in
  let data :=
    match total_count with
    | Some t => <["total_count" := VInt t]> data
    | None => data
    end in
  match page, page_size with
  | Some pg, Some sz =>
      let total_or_len :=
        match total_count with
        | Some t => if t =? 0 then Z.of_nat (length items) else t
        | None => Z.of_nat (length items)
        end in
      <["pagination" := VDict {[ "page" := VInt pg;
                                  "page_size" := VInt sz;
                                  "has_more" := VBool (pg * sz <? total_or_len) ]}]>
        data
  | _, _ => data
  end.

(** [format_table_data] *)
Definition format_table_data (columns : list string) (rows : list (list Value))
    (max_preview_rows : Z) : pydict :=
  let preview_rows :=
    if max_preview_rows <? Z.of_nat (length rows)
    then slice_to max_preview_rows rows else rows in
  {[ "columns" := VList (VStr <$> columns);
     "rows" := VList (VList <$> preview_rows);
     "total_rows" := VInt (Z.of_nat (length rows));
     "preview_rows" := VInt (Z.of_nat (length preview_rows));
     "truncated" := VBool (max_preview_rows <? Z.of_nat (length rows)) ]}.

Fixpoint zeros (n : nat) : string :=
  match n with
  | O => EmptyString
  | S n' => String "0" (zeros n')
  end.

(** [f"{x:.<d>f}"]: the decimal expansion of [x] with [d] digits after the
    point, correctly rounded (ties to even), with a minus sign for a
    negative [x]. *)
Definition format_fixed (d : nat) (x : Q) : string :=
  let scale := 10 ^ Z.of_nat d in
  let k := round_half_even (Qabs x * inject_Z scale) in
  let frac := pretty (k mod scale) in
  (if Qnum x <? 0 then "-" else "") +:+ pretty (k / scale) +:+ "." +:+
  zeros (d - String.length frac) +:+ frac.



(** [format_duration] *)
Definition format_duration (seconds : Q) : string :=
  if negb (Qle_bool (inject_Z 60) seconds) then
    format_fixed 1 seconds +:+ "s"
  else
    let minutes := Qfloor (seconds / inject_Z 60) in
    let remaining_seconds :=
      Qfloor (seconds - inject_Z 60 * inject_Z minutes) in
    if minutes <? 60 then
      pretty minutes +:+ "m " +:+ pretty remaining_seconds +:+ "s"
    else
      let hours := minutes / 60 in
      let remaining_minutes := minutes mod 60 in
      if hours <? 24 then
        pretty hours +:+ "h " +:+ pretty remaining_minutes +:+ "m"
      else
        let days := hours / 24 in
        let remaining_hours := hours mod 24 in
        pretty days +:+ "d " +:+ pretty remaining_hours +:+ "h".

(** [truncate_string] *)
Definition truncate_string (text : string) (max_length : Z) (suffix : string)
    : string :=
  if Z.of_nat (String.length text) <=? max_length then text
  else
    str_slice_to (max_length - Z.of_nat (String.length suffix)) text +:+ suffix.

End formatters.

(** ** The world the server runs in *)

Module runtime.

(** The five SDK services for which [OCIClient] keeps a client. *)
Inductive Service : Type :=
| ObjectStorage | Identity | ResourceSearch | DataFlow | DataCatalog.

#[export] Instance Service_eq_dec : EqDecision Service.
Proof. solve_decision. Defined.

(** The handler modules imported by [server.py]. *)
Inductive HandlerModule : Type :=
| instance | catalog | storage | compute | notebooks | jobs | pipelines
| connections | ml_models | analytics.

(** An SDK client object is identified by the point of the run at which it
    was constructed, so two constructions never give the same handle. *)
Definition Handle : Type := nat.

(** A bound method of an SDK client, e.g.
    [oci_client.object_storage.copy_object]. *)
Record ApiFunc : Type := mkApiFunc {
  func_service : Service;
  func_self : Handle;
  func_name : string
}.

(** One invocation of an SDK function with its keyword arguments. *)
Record ApiCall : Type := mkApiCall {
  api_func : ApiFunc;
  kwargs : pydict
}.

(** What the outside can observe of a run, in the order it happened. *)
Inductive Event : Type :=
| EvConstruct (s : Service) (h : option Handle)
| EvApi (c : ApiCall)
| EvSleep (seconds : Z)
| EvHandler (m : HandlerModule) (name : string).

(** The part of [Settings] read by the modelled code. *)
Record Settings : Type := mkSettings {
  region : string;
  namespace : string;
  compartment_ocid : string;
  request_timeout_seconds : Z;
  logging_level : string
}.

(** The state of an [OCIClient] object. *)
Record OCIClient : Type := mkOCIClient {
  settings : Settings;
  _object_storage_client : option Handle;
  _identity_client : option Handle;
  _resource_search_client : option Handle;
  _data_flow_client : option Handle;
  _data_catalog_client : option Handle
}.

Record World : Type := mkWorld {
  oci : OCIClient;
  trace : list Event;
  clock_reads : nat
}.

(** Computations that read and change the world and may raise. *)
Definition M (A : Type) : Type := World → Result A * World.

#[export] Instance M_ret : MRet M := λ A a w, (Ok a, w).

#[export] Instance M_bind : MBind M := λ A B f m w,
  match m w with
  | (Ok a, w') => f a w'
  | (Raise e, w') => (Raise e, w')
  end.

Definition raise {A} (e : PyException) : M A := λ w, (Raise e, w).

(** Lift a pure, possibly raising, computation. *)
Definition lift {A} (r : Result A) : M A := λ w, (r, w).

(** [try: ... except ...]: the outcome of [m] as a value. *)
Definition try {A} (m : M A) : M (Result A) := λ w,
  let '(r, w') := m w in (Ok r, w').

Definition record_event (ev : Event) (w : World) : World :=
  {| oci := oci w; trace := trace w ++ [ev]; clock_reads := clock_reads w |}.

Definition emit (ev : Event) : M unit := λ w, (Ok tt, record_event ev w).

Definition get_oci : M OCIClient := λ w, (Ok (oci w), w).

(** What the embedding takes from outside the modelled code: the SDK, the
    clock, [str] of values that are not strings, [traceback.format_exc], the
    shaping of an SDK bucket object into a dict, the branches of
    [storage.handle_tool_call] and the handler modules that are not
    modelled here.  The SDK answers as a function of the run so far. *)
Record Env : Type := mkEnv {
  sdk_new : Service → list Event → option PyExc;
  sdk_call : ApiCall → list Event → PyExc + Value;
  time_time : nat → Q;
  now_iso : nat → string;
  py_repr : Value → string;
  format_exc : PyException → string;
  bucket_details_data : Value → pydict;
  storage_other : string → pydict → M pydict;
  module_other : HandlerModule → string → pydict → M pydict
}.

(** [str(v)] as used inside f-strings. *)
Definition py_str (env : Env) (v : Value) : string :=
  match v with
  | VStr s => s
  | _ => py_repr env v
  end.

(** [time.time()] *)
Definition read_time (env : Env) : M Q := λ w,
  (Ok (time_time env (clock_reads w)),
   {| oci := oci w; trace := trace w; clock_reads := S (clock_reads w) |}).

(** [format_timestamp()] *)
Definition format_timestamp (env : Env) : M string := λ w,
  (Ok (now_iso env (clock_reads w)),
   {| oci := oci w; trace := trace w; clock_reads := S (clock_reads w) |}).

End runtime.
Import runtime.

(** ** tenacity's retry decorator *)

Module tenacity.

(** [wait_exponential(multiplier, min, max)] at a 1-based attempt number:
    [max(max(0, min), min(multiplier * 2 ** (attempt_number - 1), max))]. *)
Definition wait_exponential (multiplier min max : Z) (attempt_number : nat) : Z :=
  Z.max (Z.max 0 min)
        (Z.min (multiplier * 2 ^ (Z.of_nat attempt_number - 1)) max).

(** [retry_if_exception_type(classes)] for subclasses of [AIDPError]. *)
Definition retry_if_exception_type (classes : list ErrorKind)
    (e : PyException) : bool :=
  match e with
  | ExAIDP a => bool_decide (kind a ∈ classes)
  | ExNative _ => false
  end.

(** The loop of [Retrying.__call__] under [stop_after_attempt(n)] and
    [reraise=True]; [left] is [n - attempt_number].  After a failed attempt
    the retry predicate is asked first; an exception it rejects leaves at
    once; otherwise the stop condition [attempt_number >= n] re-raises the
    last exception, or the loop sleeps [wait attempt_number] and goes on. *)
Fixpoint attempts {A} (retry : PyException → bool) (wait : nat → Z)
    (body : M A) (left attempt_number : nat) : M A := λ w,
  match body w with
  | (Ok a, w1) => (Ok a, w1)
  | (Raise e, w1) =>
      if negb (retry e) then (Raise e, w1)
      else
        match left with
        | O => (Raise e, w1)
        | S left' =>
            attempts retry wait body left' (S attempt_number)
              (record_event (EvSleep (wait attempt_number)) w1)
        end
  end.

Definition retry {A} (stop_after_attempt : nat) (wait : nat → Z)
    (retry_if : PyException → bool) (body : M A) : M A :=
  attempts retry_if wait body (stop_after_attempt - 1) 1.

End tenacity.

(** ** src/oci_client.py *)

Module oci_client.

Section with_env.
Context (env : Env).

Definition get_client (s : Service) (c : OCIClient) : option Handle :=
  match s with
  | ObjectStorage => _object_storage_client c
  | Identity => _identity_client c
  | ResourceSearch => _resource_search_client c
  | DataFlow => _data_flow_client c
  | DataCatalog => _data_catalog_client c
  end.

Definition set_client (s : Service) (h : option Handle) (c : OCIClient)
    : OCIClient :=
  match s with
  | ObjectStorage =>
      mkOCIClient (settings c) h (_identity_client c)
        (_resource_search_client c) (_data_flow_client c)
        (_data_catalog_client c)
  | Identity =>
      mkOCIClient (settings c) (_object_storage_client c) h
        (_resource_search_client c) (_data_flow_client c)
        (_data_catalog_client c)
  | ResourceSearch =>
      mkOCIClient (settings c) (_object_storage_client c) (_identity_client c)
        h (_data_flow_client c) (_data_catalog_client c)
  | DataFlow =>
      mkOCIClient (settings c) (_object_storage_client c) (_identity_client c)
        (_resource_search_client c) h (_data_catalog_client c)
  | DataCatalog =>
      mkOCIClient (settings c) (_object_storage_client c) (_identity_client c)
        (_resource_search_client c) (_data_flow_client c) h
  end.

(** [OCIClient.__init__] after the configuration is loaded: no client yet. *)
Definition new_client (st : Settings) : OCIClient :=
  mkOCIClient st None None None None None.

(** The body shared by the five lazy properties:
    [if self._x_client is None: self._x_client = X(self.config, ...)];
    [return self._x_client].  A constructor that raises leaves the field
    as it was. *)
Definition lazy_client (s : Service) : M Handle := λ w,
  match get_client s (oci w) with
  | Some h => (Ok h, w)
  | None =>
      match sdk_new env s (trace w) with
      | Some exc => (Raise (ExNative exc), record_event (EvConstruct s None) w)
      | None =>
          let h : Handle := length (trace w) in
          (Ok h,
           {| oci := set_client s (Some h) (oci w);
              trace := trace w ++ [EvConstruct s (Some h)];
              clock_reads := clock_reads w |})
      end
  end.

Definition object_storage : M Handle := lazy_client ObjectStorage.
Definition identity : M Handle := lazy_client Identity.
Definition resource_search : M Handle := lazy_client ResourceSearch.
Definition data_flow : M Handle := lazy_client DataFlow.

(** [OCIClient.close] *)
Definition close : M unit := λ w,
  (Ok tt,
   {| oci := new_client (settings (oci w)); trace := trace w;
      clock_reads := clock_reads w |}).

(** The [except] clauses of [call_api], in source order. *)
Definition classify_exception (e : PyExc) : AIDPError :=
  match e with
  | ServiceError status code message _ =>
      if status =? 401 then
        init Authentication "Authentication failed"
          (Some {[ "code" := VStr code; "message" := VStr message ]}) (Some e)
      else if status =? 404 then
        init ResourceNotFound message
          (Some {[ "code" := VStr code ]}) (Some e)
      else if status =? 429 then
        init RateLimit "API rate limit exceeded"
          (Some {[ "code" := VStr code; "message" := VStr message ]}) (Some e)
      else if 500 <=? status then
        init API ("OCI service error: " +:+ message)
          (Some {[ "code" := VStr code; "status" := VInt status ]}) (Some e)
      else
        init API message
          (Some {[ "code" := VStr code; "status" := VInt status ]}) (Some e)
  | ConnectTimeout _ =>
      init Timeout "Connection to OCI timed out" None (Some e)
  | RequestException _ _ =>
      init Network "Network error while communicating with OCI" None (Some e)
  | OtherException _ _ =>
      init API ("Unexpected error: " +:+ pyexc_str e) None (Some e)
  end.

(** The undecorated body of [call_api]: one invocation of the SDK function,
    whose exception, if any, is replaced by its classification. *)
Definition call_api_body (c : ApiCall) : M Value := λ w,
  match sdk_call env c (trace w) with
  | inr response => (Ok response, record_event (EvApi c) w)
  | inl e => (Raise (ExAIDP (classify_exception e)), record_event (EvApi c) w)
  end.

Definition call_api_wait : nat → Z := tenacity.wait_exponential 1 2 10.

Definition call_api_retry_if : PyException → bool :=
  tenacity.retry_if_exception_type [Network; Timeout].

(** [call_api] as decorated:
    [@retry(stop=stop_after_attempt(3),
            wait=wait_exponential(multiplier=1, min=2, max=10),
            retry=retry_if_exception_type((NetworkError, TimeoutError)),
            reraise=True)]. *)
Definition call_api (c : ApiCall) : M Value :=
  tenacity.retry 3 call_api_wait call_api_retry_if (call_api_body c).

Definition get_namespace : M string := λ w, (Ok (namespace (settings (oci w))), w).
Definition get_compartment_id : M string :=
  λ w, (Ok (compartment_ocid (settings (oci w))), w).
Definition get_region : M string := λ w, (Ok (region (settings (oci w))), w).

(** [d[key]] on a dict, raising [KeyError]. *)
Definition dict_getitem (d : pydict) (key : string) : M Value :=
  match d !! key with
  | Some v => mret v
  | None => raise (ExNative (OtherException "KeyError" ("'" +:+ key +:+ "'")))
  end.

(** The body of the first [try] block of [test_connection].  [config] is
    [self.config]; [tenancy_name] stands for the attribute access
    [tenancy.data.name] on the SDK response. *)
Definition identity_probe (config : pydict)
    (tenancy_name : Value → Result Value) : M pydict :=
  h ← identity;
  tenancy_id ← dict_getitem config "tenancy";
  tenancy ← call_api
    (mkApiCall (mkApiFunc Identity h "get_tenancy")
       {[ "tenancy_id" := tenancy_id ]});
  name ← lift (tenancy_name tenancy);
  mret ({[ "status" := VStr "connected"; "tenancy_name" := name ]} : pydict).

(** The body of the second [try] block. *)
Definition storage_probe : M pydict :=
  h ← object_storage;
  ns ← get_namespace;
  cid ← get_compartment_id;
  _ ← call_api
    (mkApiCall (mkApiFunc ObjectStorage h "list_buckets")
       {[ "namespace_name" := VStr ns; "compartment_id" := VStr cid ]});
  mret ({[ "status" := VStr "connected" ]} : pydict).

(** What a [try] block of [test_connection] leaves in
    [results["services"]]: its own entry, or, under
    [except Exception as e], a failed one. *)
Definition service_entry (outcome : Result pydict) : pydict :=
  match outcome with
  | Ok entry => entry
  | Raise e => {[ "status" := VStr "failed"; "error" := VStr (exc_str e) ]}
  end.

(** [test_connection] *)
Definition test_connection (config : pydict)
    (tenancy_name : Value → Result Value) : M pydict :=
  rg ← get_region;
  cid ← get_compartment_id;
  ns ← get_namespace;
  identity_outcome ← try (identity_probe config tenancy_name);
  storage_outcome ← try storage_probe;
  mret ({[ "region" := VStr rg;
           "compartment_id" := VStr cid;
           "namespace" := VStr ns;
           "services" :=
             VDict {[ "identity" := VDict (service_entry identity_outcome);
                      "object_storage" :=
                        VDict (service_entry storage_outcome) ]} ]}
        : pydict).

End with_env.
End oci_client.

(** ** src/modules/storage.py *)

Module storage_module.

Section with_env.
Context (env : Env).

(** [arguments[key]] *)
Definition getitem (arguments : pydict) (key : string) : M Value :=
  match arguments !! key with
  | Some v => mret v
  | None => raise (ExNative (OtherException "KeyError" ("'" +:+ key +:+ "'")))
  end.

(** [format_success_response(data)] as the handlers call it: no request id,
    no execution time. *)
Definition success (data : pydict) : M pydict :=
  now ← format_timestamp env;
  mret (formatters.format_success_response now (VDict data) None None).

Definition get_bucket_details (bucket_name : Value) : M pydict :=
  h ← oci_client.object_storage env;
  ns ← oci_client.get_namespace;
  response ← oci_client.call_api env
    (mkApiCall (mkApiFunc ObjectStorage h "get_bucket")
       {[ "namespace_name" := VStr ns; "bucket_name" := bucket_name ]});
  success (bucket_details_data env response).

Definition delete_object (bucket_name object_name : Value) : M pydict :=
  h ← oci_client.object_storage env;
  ns ← oci_client.get_namespace;
  _ ← oci_client.call_api env
    (mkApiCall (mkApiFunc ObjectStorage h "delete_object")
       {[ "namespace_name" := VStr ns; "bucket_name" := bucket_name;
          "object_name" := object_name ]});
  success
    {[ "bucket_name" := bucket_name;
       "object_name" := object_name;
       "status" := VStr "DELETED";
       "message" := VStr ("Object '" +:+ py_str env object_name +:+
                          "' deleted successfully") ]}.

Definition copy_object (source_bucket source_object dest_bucket dest_object
    : Value) : M pydict :=
  rg ← oci_client.get_region;
  ns ← oci_client.get_namespace;
  let copy_object_details : pydict :=
    {[ "source_object_name" := source_object;
       "destination_region" := VStr rg;
       "destination_namespace" := VStr ns;
       "destination_bucket" := dest_bucket;
       "destination_object_name" := dest_object ]} in
  h ← oci_client.object_storage env;
  ns ← oci_client.get_namespace;
  response ← oci_client.call_api env
    (mkApiCall (mkApiFunc ObjectStorage h "copy_object")
       {[ "namespace_name" := VStr ns; "bucket_name" := source_bucket;
          "copy_object_details" := VDict copy_object_details ]});
  success
    {[ "source_bucket" := source_bucket;
       "source_object" := source_object;
       "dest_bucket" := dest_bucket;
       "dest_object" := dest_object;
       "message" := VStr "Object copied successfully" ]}.

(** Move an object (copy then delete). *)
Definition move_object (source_bucket source_object dest_bucket dest_object
    : Value) : M pydict :=
  _ ← copy_object source_bucket source_object dest_bucket dest_object;
  _ ← delete_object source_bucket source_object;
  success
    {[ "source_bucket" := source_bucket;
       "source_object" := source_object;
       "dest_bucket" := dest_bucket;
       "dest_object" := dest_object;
       "message" := VStr "Object moved successfully" ]}.

(** The loop of [delete_bucket] over the listed objects. *)
Fixpoint delete_objects (bucket_name : Value) (object_names : list Value)
    : M unit :=
  match object_names with
  | [] => mret tt
  | object_name :: rest =>
      h ← oci_client.object_storage env;
      ns ← oci_client.get_namespace;
      _ ← oci_client.call_api env
        (mkApiCall (mkApiFunc ObjectStorage h "delete_object")
           {[ "namespace_name" := VStr ns; "bucket_name" := bucket_name;
              "object_name" := object_name ]});
      delete_objects bucket_name rest
  end.

(** The block under [if force:]: list the objects, delete each. [listed]
    stands for [[obj.name for obj in objects_response.data.objects]]. *)
Definition purge_objects (listed : Value → list Value) (bucket_name : Value)
    : M unit :=
  h ← oci_client.object_storage env;
  ns ← oci_client.get_namespace;
  objects_response ← oci_client.call_api env
    (mkApiCall (mkApiFunc ObjectStorage h "list_objects")
       {[ "namespace_name" := VStr ns; "bucket_name" := bucket_name ]});
  delete_objects bucket_name (listed objects_response).

Definition delete_bucket (listed : Value → list Value) (bucket_name : Value)
    (force : bool) : M pydict :=
  _ ← (if force then purge_objects listed bucket_name else mret tt);
  h ← oci_client.object_storage env;
  ns ← oci_client.get_namespace;
  _ ← oci_client.call_api env
    (mkApiCall (mkApiFunc ObjectStorage h "delete_bucket")
       {[ "namespace_name" := VStr ns; "bucket_name" := bucket_name ]});
  success
    {[ "bucket_name" := bucket_name;
       "status" := VStr "DELETED";
       "message" := VStr ("Bucket '" +:+ py_str env bucket_name +:+
                          "' deleted successfully") ]}.

(** The names of the tools that [get_tools] lists, in its order. *)
Definition tool_names : list string :=
  [ "list_buckets"; "create_bucket"; "get_bucket_details"; "update_bucket";
    "delete_bucket"; "list_objects"; "upload_object"; "download_object";
    "get_object_metadata"; "update_object_metadata"; "delete_object";
    "copy_object"; "move_object"; "create_presigned_url";
    "list_object_versions"; "restore_object_version";
    "set_object_lifecycle"; "get_bucket_lifecycle"; "bulk_upload";
    "bulk_download" ].

(** The tool names whose branches of [handle_tool_call] are taken from
    [storage_other env]. *)
Definition other_tools : list string :=
  [ "list_buckets"; "create_bucket"; "update_bucket"; "delete_bucket";
    "list_objects"; "upload_object"; "download_object";
    "get_object_metadata"; "update_object_metadata";
    "create_presigned_url"; "list_object_versions";
    "restore_object_version"; "set_object_lifecycle";
    "get_bucket_lifecycle"; "bulk_upload"; "bulk_download" ].

Definition handle_tool_call (name : string) (arguments : pydict) : M pydict :=
  if String.eqb name "get_bucket_details" then
    _ ← lift (validators.validate_required_fields arguments ["bucket_name"]);
    bucket_name ← getitem arguments "bucket_name";
    get_bucket_details bucket_name
  else if String.eqb name "delete_object" then
    _ ← lift (validators.validate_required_fields arguments
                ["bucket_name"; "object_name"]);
    bucket_name ← getitem arguments "bucket_name";
    object_name ← getitem arguments "object_name";
    delete_object bucket_name object_name
  else if String.eqb name "copy_object" then
    _ ← lift (validators.validate_required_fields arguments
                ["source_bucket"; "source_object"; "dest_bucket"; "dest_object"]);
    source_bucket ← getitem arguments "source_bucket";
    source_object ← getitem arguments "source_object";
    dest_bucket ← getitem arguments "dest_bucket";
    dest_object ← getitem arguments "dest_object";
    copy_object source_bucket source_object dest_bucket dest_object
  else if String.eqb name "move_object" then
    _ ← lift (validators.validate_required_fields arguments
                ["source_bucket"; "source_object"; "dest_bucket"; "dest_object"]);
    source_bucket ← getitem arguments "source_bucket";
    source_object ← getitem arguments "source_object";
    dest_bucket ← getitem arguments "dest_bucket";
    dest_object ← getitem arguments "dest_object";
    move_object source_bucket source_object dest_bucket dest_object
  else if existsb (String.eqb name) other_tools then
    storage_other env name arguments
  else
    lift (raise_error Validation ("Unknown tool: " +:+ name) None None).

End with_env.
End storage_module.

(** ** src/modules/catalog.py and src/modules/notebooks.py *)

Module catalog_module.

Definition handle_tool_call (env : Env) (name : string) (arguments : pydict)
    : M pydict :=
  storage_module.success env
    {[ "tool" := VStr name;
       "arguments" := VDict arguments;
       "message" := VStr ("Catalog tool '" +:+ name +:+
                          "' executed successfully (mock implementation)");
       "note" := VStr "This is a placeholder. Integrate with actual AIDP Catalog API in production." ]}.

(** The names in [tool_definitions] of [get_tools], in its order. *)
Definition tool_names : list string :=
  [ "list_catalog_objects"; "search_catalog"; "get_object_metadata";
    "create_catalog_entry"; "update_catalog_entry"; "delete_catalog_entry";
    "get_data_lineage"; "list_databases"; "get_database_details";
    "list_schemas"; "list_tables"; "get_table_schema";
    "get_table_statistics"; "preview_table_data"; "refresh_catalog";
    "set_object_tags"; "get_object_tags"; "export_catalog_metadata";
    "import_catalog_metadata"; "validate_catalog_entry" ].

End catalog_module.

Module notebooks_module.

Definition handle_tool_call (env : Env) (name : string) (arguments : pydict)
    : M pydict :=
  storage_module.success env
    {[ "tool" := VStr name;
       "message" := VStr "Tool executed successfully (placeholder)" ]}.

(** [get_tools] names its tools [f"{module_name}_{i+1}"] for [i] in
    [range(count)]; the module name is "notebooks", the count 15. *)
Definition tool_names : list string :=
  (λ i : nat, "notebooks_" +:+ pretty (i + 1)%nat) <$> seq 0 15.

End notebooks_module.

(** ** src/modules/instance.py and src/modules/compute.py: the tool lists *)

Module instance_module.

Definition tool_names : list string :=
  [ "get_instance_status"; "get_instance_metrics"; "list_workspaces";
    "create_workspace"; "get_workspace_details"; "update_workspace";
    "delete_workspace"; "list_workspace_users"; "grant_workspace_access";
    "revoke_workspace_access" ].

End instance_module.

Module compute_module.

Definition tool_names : list string :=
  [ "list_clusters"; "get_cluster_details"; "create_cluster";
    "delete_cluster"; "list_cluster_runs"; "get_run_details"; "create_run";
    "delete_run"; "get_run_logs"; "list_pools"; "get_pool_details";
    "create_pool"; "start_pool"; "stop_pool"; "delete_pool" ].

End compute_module.

(** ** config/settings.py: the feature flags *)

Module config.


End config.

(** ** src/server.py *)

Module server.

Section with_env.
Context (env : Env).

(** [name.startswith((p1, ..., pn))] *)
Definition startswith_any (name : string) (prefixes : list string) : bool :=
  existsb (validators.startswith name) prefixes.

(** The [if]/[elif] chain of [handle_call_tool] that picks the module. *)
Definition route (name : string) : option HandlerModule :=
  if startswith_any name
       [ "get_instance"; "list_workspaces"; "create_workspace";
         "get_workspace"; "update_workspace"; "delete_workspace";
         "grant_workspace"; "revoke_workspace" ]
  then Some instance
  else if startswith_any name
       [ "list_catalog"; "search_catalog"; "create_catalog";
         "update_catalog"; "delete_catalog"; "get_data_lineage";
         "list_databases"; "get_database"; "list_schemas";
         "list_tables"; "get_table"; "preview_table";
         "refresh_catalog"; "set_object_tags"; "get_object_tags";
         "export_catalog"; "import_catalog"; "validate_catalog" ]
  then Some catalog
  else if startswith_any name
       [ "list_buckets"; "create_bucket"; "get_bucket";
         "update_bucket"; "delete_bucket"; "list_objects";
         "upload_object"; "download_object"; "get_object";
         "update_object"; "delete_object"; "copy_object";
         "move_object"; "create_presigned"; "list_object_versions";
         "restore_object"; "set_object_lifecycle"; "get_bucket_lifecycle";
         "bulk_upload"; "bulk_download" ]
  then Some storage
  else if validators.startswith name "compute_" then Some compute
  else if validators.startswith name "notebooks_" then Some notebooks
  else if validators.startswith name "jobs_" then Some jobs
  else if validators.startswith name "pipelines_" then Some pipelines
  else if validators.startswith name "connections_" then Some connections
  else if validators.startswith name "ml_models_" then Some ml_models
  else if validators.startswith name "analytics_" then Some analytics
  else None.

(** [await <module>.handle_tool_call(name, arguments, _oci_client)] *)
Definition module_handle_tool_call (m : HandlerModule) (name : string)
    (arguments : pydict) : M pydict :=
  _ ← emit (EvHandler m name);
  match m with
  | storage => storage_module.handle_tool_call env name arguments
  | catalog => catalog_module.handle_tool_call env name arguments
  | notebooks => notebooks_module.handle_tool_call env name arguments
  | _ => module_other env m name arguments
  end.

(** [int(x)] of a float: truncation towards zero. *)
Definition py_int (x : Q) : Z := Z.quot (Qnum x) (Z.pos (Qden x)).

(** [f"req_{int(start_time * 1000)}"] *)
Definition request_id_of (start_time : Q) : string :=
  "req_" +:+ pretty (py_int (start_time * inject_Z 1000)%Q).

(** [(time.time() - start_time) * 1000] *)
Definition elapsed_ms (start_time end_time : Q) : Q :=
  ((end_time - start_time) * inject_Z 1000)%Q.

(** The routing inside the [try] block of [handle_call_tool]. *)
Definition dispatch (name : string) (arguments : pydict) : M pydict :=
  match route name with
  | Some m => module_handle_tool_call m name arguments
  | None =>
      raise (ExNative (OtherException "ValueError" ("Unknown tool: " +:+ name)))
  end.


(** The world once [handle_call_tool] has read its start time. *)
Definition started (w : World) : World :=
  mkWorld (oci w) (trace w) (S (clock_reads w)).

(** [handle_call_tool]; the value returned here is the dict that the source
    serialises with [format_json_response] into the text of its reply. *)
Definition handle_call_tool (name : string) (arguments : option pydict)
    : M pydict :=
  start_time ← read_time env;
  let request_id := request_id_of start_time in
  let arguments := default ∅ arguments in
  outcome ← try (dispatch name arguments);
  match outcome with
  | Ok result =>
      end_time ← read_time env;
      mret result
  | Raise (ExAIDP e) =>
      end_time ← read_time env;
      st ← get_oci;
      now ← format_timestamp env;
      mret (formatters.format_error_response now (ExAIDP e) (Some request_id)
              (String.eqb (logging_level (settings st)) "DEBUG"))
  | Raise (ExNative e) =>
      end_time ← read_time env;
      st ← get_oci;
      let execution_time_ms := elapsed_ms start_time end_time in
      mret
        {[ "success" := VBool false;
           "error" := VDict
             {[ "type" := VStr "UnexpectedError";
                "message" := VStr (pyexc_str e);
                "traceback" :=
                  if String.eqb (logging_level (settings st)) "DEBUG"
                  then VStr (format_exc env (ExNative e))
                  else VNone ]};
           "metadata" := VDict
             {[ "request_id" := VStr request_id;
                "execution_time_ms" :=
                  VFloat (formatters.round2 execution_time_ms) ]} ]}
  end.

End with_env.
End server.

(** ** Tasks on the event loop *)

(** The server runs its invocations as coroutines on one [asyncio] event
    loop.  The lazy properties and [call_api] are ordinary synchronous
    functions, without any [await] inside, so a task is never suspended in
    the middle of one of them: seen from the client object, a run of N
    concurrent invocations is some interleaving of whole property accesses
    and whole calls.  A [schedule] is such an interleaving. *)

Module event_loop.

Definition Task : Type := nat.

Inductive Step : Type :=
| Access (s : Service)
| Call (c : ApiCall).

Inductive Obs : Type :=
| Got (s : Service) (r : Result Handle)
| Called (r : Result Value).

Definition schedule : Type := list (Task * Step).

Fixpoint run_schedule (env : Env) (sched : schedule) (w : World)
    : list (Task * Obs) * World :=
  match sched with
  | [] => ([], w)
  | (t, Access s) :: rest =>
      let '(r, w1) := oci_client.lazy_client env s w in
      let '(obs, w2) := run_schedule env rest w1 in
      ((t, Got s r) :: obs, w2)
  | (t, Call c) :: rest =>
      let '(r, w1) := oci_client.call_api env c w in
      let '(obs, w2) := run_schedule env rest w1 in
      ((t, Called r) :: obs, w2)
  end.

(** The handles built for service [s] in a trace, oldest first. *)
Fixpoint constructions (s : Service) (tr : list Event) : list Handle :=
  match tr with
  | [] => []
  | EvConstruct s' (Some h) :: tr' =>
      if decide (s' = s) then h :: constructions s tr' else constructions s tr'
  | _ :: tr' => constructions s tr'
  end.

(** The cached client of every service is the one construction of that
    service recorded in the trace, and a service without a cached client
    has none recorded. *)
Definition consistent (w : World) : Prop :=
  ∀ s, constructions s (trace w) =
       match oci_client.get_client s (oci w) with
       | Some h => [h]
       | None => []
       end.

(** The world of a process that has just built its [OCIClient]. *)
Definition fresh (st : Settings) : World :=
  mkWorld (oci_client.new_client st) [] 0%nat.

End event_loop.

(** ** Reading a trace *)

Module observe.

(** Names of the SDK functions invoked, oldest first. *)
Fixpoint api_names (tr : list Event) : list string :=
  match tr with
  | [] => []
  | EvApi c :: tr' => func_name (api_func c) :: api_names tr'
  | _ :: tr' => api_names tr'
  end.

(** The SDK invocations of a trace. *)
Fixpoint api_calls (tr : list Event) : list ApiCall :=
  match tr with
  | [] => []
  | EvApi c :: tr' => c :: api_calls tr'
  | _ :: tr' => api_calls tr'
  end.

(** The handler modules entered. *)
Fixpoint handlers (tr : list Event) : list HandlerModule :=
  match tr with
  | [] => []
  | EvHandler m _ :: tr' => m :: handlers tr'
  | _ :: tr' => handlers tr'
  end.

(** The pauses between attempts. *)
Fixpoint sleeps (tr : list Event) : list Z :=
  match tr with
  | [] => []
  | EvSleep d :: tr' => d :: sleeps tr'
  | _ :: tr' => sleeps tr'
  end.

(** [d[k1][k2]] on nested dicts. *)
Definition lookup2 (d : pydict) (k1 k2 : string) : option Value :=
  match d !! k1 with
  | Some (VDict d1) => d1 !! k2
  | _ => None
  end.

(** [m] changes the trace only by appending events that satisfy [P]. *)
Definition appends_only {A} (P : Event → Prop) (m : M A) : Prop :=
  ∀ w r w1, m w = (r, w1) →
    ∃ added, trace w1 = trace w ++ added ∧ Forall P added.

(** An event that is not an invocation of an SDK function other than
    [name]. *)
Definition calls_only (name : string) (ev : Event) : Prop :=
  match ev with
  | EvApi c => func_name (api_func c) = name
  | _ => True
  end.


End observe.

(** ** Sample environments *)

Module samples.

Definition st0 : Settings :=
  mkSettings "us-ashburn-1" "ns" "ocid1.compartment.oc1..aaaa" 30 "INFO".

Definition w0 : World := event_loop.fresh st0.

(** An environment whose SDK behaves as [call] says; constructors never
    fail, the clock advances one second per reading. *)
Definition env_of (call : ApiCall → list Event → PyExc + Value) : Env :=
  {| sdk_new := λ _ _, None;
     sdk_call := call;
     time_time := λ n, inject_Z (Z.of_nat n);
     now_iso := λ _, "2025-01-01T00:00:00+00:00";
     py_repr := λ _, "?";
     format_exc := λ e, exc_str e;
     bucket_details_data := λ _, ∅;
     storage_other := λ _ _, mret ∅;
     module_other := λ _ _ _, mret ∅ |}.

Definition env_ok : Env := env_of (λ _ _, inr VNone).


Definition env_timeout : Env :=
  env_of (λ _ _, inl (ConnectTimeout "connect timeout")).

Definition env_network : Env :=
  env_of (λ _ _, inl (RequestException "ConnectionError" "connection reset")).

Definition not_found : PyExc :=
  ServiceError 404 "BucketNotFound" "no such bucket" "{'status': 404}".

Definition env_404 : Env := env_of (λ _ _, inl not_found).

Definition boom : PyExc :=
  ServiceError 500 "InternalError" "boom" "{'status': 500}".

(** The copy fails; anything else succeeds. *)
Definition env_copy_fails : Env :=
  env_of (λ c _,
    if String.eqb (func_name (api_func c)) "copy_object" then inl boom
    else inr VNone).

(** The copy succeeds; the delete fails the same way. *)
Definition env_delete_fails : Env :=
  env_of (λ c _,
    if String.eqb (func_name (api_func c)) "delete_object" then inl boom
    else inr VNone).

Definition move_args : pydict :=
  {[ "source_bucket" := VStr "a"; "source_object" := VStr "x";
     "dest_bucket" := VStr "b"; "dest_object" := VStr "y" ]}.

Definition some_call : ApiCall :=
  mkApiCall (mkApiFunc ObjectStorage 0%nat "get_bucket") ∅.

End samples.

(** * Properties *)

(** ** Classification of SDK failures *)

Section classification.
Import oci_client.

Lemma classify_keeps_cause (e : PyExc) :
  original_error (classify_exception e) = Some e.
Proof.
  destruct e as [status code msg text| | |]; simpl; try reflexivity.
  repeat case_match; reflexivity.
Qed.


Lemma retry_if_by_kind (a : AIDPError) :
  call_api_retry_if (ExAIDP a) = bool_decide (kind a = Timeout ∨ kind a = Network).
Proof.
  unfold call_api_retry_if, tenacity.retry_if_exception_type.
  destruct (kind a); reflexivity.
Qed.

Lemma retry_if_classified (e : PyExc) :
  call_api_retry_if (ExAIDP (classify_exception e)) =
    match e with
    | ConnectTimeout _ | RequestException _ _ => true
    | _ => false
    end.
Proof.
  destruct e as [status code msg text| | |]; simpl; try reflexivity.
  repeat case_match; reflexivity.
Qed.

(** One attempt: the SDK function is invoked once. *)
Lemma call_api_body_fail (env : Env) (c : ApiCall) (w : World) (e : PyExc) :
  sdk_call env c (trace w) = inl e →
  call_api_body env c w =
    (Raise (ExAIDP (classify_exception e)), record_event (EvApi c) w).
Proof. intros H. unfold call_api_body. rewrite H. reflexivity. Qed.

Lemma call_api_body_ok (env : Env) (c : ApiCall) (w : World) (v : Value) :
  sdk_call env c (trace w) = inr v →
  call_api_body env c w = (Ok v, record_event (EvApi c) w).
Proof. intros H. unfold call_api_body. rewrite H. reflexivity. Qed.


Lemma attempts_ok {A} (retry : PyException → bool) (wait : nat → Z)
    (body : M A) (left n : nat) (w w1 : World) (a : A) :
  body w = (Ok a, w1) →
  tenacity.attempts retry wait body left n w = (Ok a, w1).
Proof. intros H. destruct left; simpl; rewrite H; reflexivity. Qed.

Lemma attempts_no_retry {A} (retry : PyException → bool) (wait : nat → Z)
    (body : M A) (left n : nat) (w w1 : World) (e : PyException) :
  body w = (Raise e, w1) → retry e = false →
  tenacity.attempts retry wait body left n w = (Raise e, w1).
Proof. intros H Hr. destruct left; simpl; rewrite H, Hr; reflexivity. Qed.

Lemma attempts_stop {A} (retry : PyException → bool) (wait : nat → Z)
    (body : M A) (n : nat) (w w1 : World) (e : PyException) :
  body w = (Raise e, w1) →
  tenacity.attempts retry wait body 0 n w = (Raise e, w1).
Proof. intros H. simpl. rewrite H. destruct (retry e); reflexivity. Qed.

Lemma attempts_again {A} (retry : PyException → bool) (wait : nat → Z)
    (body : M A) (left n : nat) (w w1 : World) (e : PyException) :
  body w = (Raise e, w1) → retry e = true →
  tenacity.attempts retry wait body (S left) n w =
  tenacity.attempts retry wait body left (S n)
    (record_event (EvSleep (wait n)) w1).
Proof. intros H Hr. simpl. rewrite H, Hr. reflexivity. Qed.

Lemma wait_exponential_values (attempt : nat) :
  call_api_wait (S attempt) = Z.min 10 (Z.max 2 (1 * 2 ^ Z.of_nat attempt)).
Proof.
  unfold call_api_wait, tenacity.wait_exponential.
  replace (Z.of_nat (S attempt) - 1) with (Z.of_nat attempt) by lia.
  lia.
Qed.

Lemma wait_exponential_monotone (attempt : nat) :
  call_api_wait (S attempt) ≤ call_api_wait (S (S attempt)).
Proof.
  rewrite !wait_exponential_values.
  assert (2 ^ Z.of_nat attempt ≤ 2 ^ Z.of_nat (S attempt))
    by (apply Z.pow_le_mono_r; lia).
  lia.
Qed.

Lemma transient_kind (e : PyExc) :
  kind (classify_exception e) = Timeout ∨ kind (classify_exception e) = Network →
  call_api_retry_if (ExAIDP (classify_exception e)) = true.
Proof. intros H. rewrite retry_if_by_kind. apply bool_decide_eq_true. exact H. Qed.

Lemma not_transient_kind (e : PyExc) :
  kind (classify_exception e) ≠ Timeout → kind (classify_exception e) ≠ Network →
  call_api_retry_if (ExAIDP (classify_exception e)) = false.
Proof.
  intros H1 H2. rewrite retry_if_by_kind. apply bool_decide_eq_false. tauto.
Qed.



(** C1: eligibility for a retry is a function of the error kind.  When every
    invocation of the SDK function fails with a failure classified Timeout
    or Network, [call_api] invokes it exactly three times, sleeps
    [min(10, max(2, 1 * 2^attempt))] seconds after attempt number
    [attempt] counted from 0 (a delay that never decreases and never
    exceeds 10), and raises the classification of the third failure, whose
    cause is that failure.  When the first invocation fails with any other
    classification, [call_api] invokes the function exactly once. *)
Theorem call_api_retry_policy (env : Env) (c : ApiCall) (w : World) :
  (∀ a, call_api_retry_if (ExAIDP a) =
        bool_decide (kind a = Timeout ∨ kind a = Network))
  ∧ ((∀ tr, ∃ e, sdk_call env c tr = inl e ∧
        (kind (classify_exception e) = Timeout ∨
         kind (classify_exception e) = Network)) →
     ∃ e3 w',
       call_api env c w = (Raise (ExAIDP (classify_exception e3)), w')
       ∧ trace w' = trace w ++ [EvApi c; EvSleep (call_api_wait 1);
                                EvApi c; EvSleep (call_api_wait 2); EvApi c]
       ∧ sdk_call env c (trace w ++ [EvApi c; EvSleep (call_api_wait 1);
                                     EvApi c; EvSleep (call_api_wait 2)])
           = inl e3
       ∧ original_error (classify_exception e3) = Some e3
       ∧ oci w' = oci w)
  ∧ (∀ attempt : nat,
       call_api_wait (S attempt) = Z.min 10 (Z.max 2 (1 * 2 ^ Z.of_nat attempt))
       ∧ call_api_wait (S attempt) ≤ call_api_wait (S (S attempt))
       ∧ call_api_wait (S attempt) ≤ 10)
  ∧ (∀ e, sdk_call env c (trace w) = inl e →
       kind (classify_exception e) ≠ Timeout →
       kind (classify_exception e) ≠ Network →
       call_api env c w =
         (Raise (ExAIDP (classify_exception e)), record_event (EvApi c) w)).
Proof.
  split; [exact retry_if_by_kind|]. split; [|split].
  - intros Hall.
    destruct (Hall (trace w)) as (e1 & He1 & Hk1).
    pose (w1 := record_event (EvSleep (call_api_wait 1)) (record_event (EvApi c) w)).
    destruct (Hall (trace w1)) as (e2 & He2 & Hk2).
    pose (w2 := record_event (EvSleep (call_api_wait 2)) (record_event (EvApi c) w1)).
    destruct (Hall (trace w2)) as (e3 & He3 & Hk3).
    exists e3, (record_event (EvApi c) w2).
    split; [|split; [|split; [|split]]].
    + unfold call_api, tenacity.retry. simpl Nat.sub.
      rewrite (attempts_again _ _ _ _ _ _ _ _ (call_api_body_fail _ _ _ _ He1)
                 (transient_kind _ Hk1)).
      fold w1.
      rewrite (attempts_again _ _ _ _ _ _ _ _ (call_api_body_fail _ _ _ _ He2)
                 (transient_kind _ Hk2)).
      fold w2.
      apply attempts_stop. apply call_api_body_fail. exact He3.
    + simpl. rewrite <- !app_assoc. reflexivity.
    + rewrite <- He3. f_equal. simpl. rewrite <- !app_assoc. reflexivity.
    + apply classify_keeps_cause.
    + reflexivity.
  - intros attempt. split; [apply wait_exponential_values|].
    split; [apply wait_exponential_monotone|].
    rewrite wait_exponential_values. lia.
  - intros e He H1 H2. unfold call_api, tenacity.retry.
    apply attempts_no_retry.
    + apply call_api_body_fail. exact He.
    + apply not_transient_kind; assumption.
Qed.

Lemma call_api_retry_policy_witness :
  (∃ e3 w',
     call_api samples.env_timeout samples.some_call samples.w0 =
       (Raise (ExAIDP (classify_exception e3)), w')
     ∧ trace w' = [EvApi samples.some_call; EvSleep 2;
                   EvApi samples.some_call; EvSleep 2; EvApi samples.some_call]
     ∧ kind (classify_exception e3) = Timeout)
  ∧ call_api samples.env_404 samples.some_call samples.w0 =
      (Raise (ExAIDP (classify_exception samples.not_found)),
       record_event (EvApi samples.some_call) samples.w0).
Proof.
  split.
  - destruct (call_api_retry_policy samples.env_timeout samples.some_call
                samples.w0) as (_ & H & _).
    destruct H as (e3 & w' & Hrun & Htr & He3 & _).
    + intros tr. exists (ConnectTimeout "connect timeout").
      split; [reflexivity|left; reflexivity].
    + exists e3, w'. split; [exact Hrun|]. split; [exact Htr|].
      simpl in He3. injection He3 as <-. reflexivity.
  - destruct (call_api_retry_policy samples.env_404 samples.some_call
                samples.w0) as (_ & _ & _ & H).
    apply (H samples.not_found); [reflexivity|discriminate|discriminate].
Defined.

End classification.

(** ** Envelopes *)

Section envelopes.
Import formatters observe.

Lemma truthy_dict_spec (d : pydict) : truthy_dict d = true ↔ d ≠ ∅.
Proof.
  unfold truthy_dict. rewrite negb_true_iff, bool_decide_eq_false.
  apply map_size_non_empty_iff.
Qed.

Lemma success_envelope_top (now : string) (data : Value) (rid : option string)
    (t : option Q) :
  let s := format_success_response now data rid t in
  s !! "success" = Some (VBool true) ∧ s !! "data" = Some data
  ∧ s !! "error" = None.
Proof. repeat split. Qed.

Lemma error_envelope_top (now : string) (error : PyException)
    (rid : option string) (tb : bool) :
  let e := format_error_response now error rid tb in
  e !! "success" = Some (VBool false) ∧ is_Some (e !! "error")
  ∧ e !! "data" = None.
Proof. repeat split. eexists. reflexivity. Qed.

Lemma success_metadata (now : string) (data : Value) (rid : option string)
    (t : option Q) :
  let s := format_success_response now data rid t in
  lookup2 s "metadata" "timestamp" = Some (VStr now)
  ∧ lookup2 s "metadata" "request_id" =
      (if truthy_str rid then VStr <$> rid else None)
  ∧ lookup2 s "metadata" "execution_time_ms" = (λ x, VFloat (round2 x)) <$> t.
Proof.
  destruct rid as [[|c r]|], t as [q|]; repeat split.
Qed.

Lemma error_metadata (now : string) (error : PyException)
    (rid : option string) (tb : bool) :
  let e := format_error_response now error rid tb in
  lookup2 e "metadata" "timestamp" = Some (VStr now)
  ∧ lookup2 e "metadata" "request_id" =
      (if truthy_str rid then VStr <$> rid else None)
  ∧ lookup2 e "metadata" "execution_time_ms" = None.
Proof.
  destruct rid as [[|c r]|]; repeat split.
Qed.

Lemma error_data_native (now : string) (n : PyExc) (rid : option string)
    (tb : bool) :
  let e := format_error_response now (ExNative n) rid tb in
  lookup2 e "error" "type" = Some (VStr (pyexc_class_name n))
  ∧ lookup2 e "error" "message" = Some (VStr (pyexc_str n))
  ∧ lookup2 e "error" "details" = None
  ∧ lookup2 e "error" "original_error" = None.
Proof. repeat split. Qed.

Lemma error_data_aidp (now : string) (a : AIDPError) (rid : option string)
    (tb : bool) :
  let e := format_error_response now (ExAIDP a) rid tb in
  lookup2 e "error" "type" = Some (VStr (class_name (kind a)))
  ∧ lookup2 e "error" "message" = Some (VStr (message a))
  ∧ lookup2 e "error" "details" =
      (if truthy_dict (details a) then Some (VDict (details a)) else None)
  ∧ lookup2 e "error" "original_error" =
      (if tb then (λ o, VStr (pyexc_str o)) <$> original_error a else None).
Proof.
  unfold format_error_response, lookup2. simpl.
  destruct (truthy_dict (details a)), (original_error a) as [o|], tb;
    repeat split.
Qed.



Lemma round_half_even_cases (q : Q) :
  let k := round_half_even q in
  (k = Qfloor q ∧ (q - inject_Z (Qfloor q) <= 1 # 2)%Q)
  ∨ (k = Qfloor q + 1 ∧ (1 # 2 <= q - inject_Z (Qfloor q))%Q).
Proof.
  unfold round_half_even.
  destruct (Qcompare (q - inject_Z (Qfloor q)) (1 # 2)) eqn:Hc.
  - apply Qeq_alt in Hc. destruct (Z.even (Qfloor q)); [left|right];
      split; try reflexivity; rewrite Hc; apply Qle_refl.
  - apply Qlt_alt in Hc. left. split; [reflexivity|]. apply Qlt_le_weak, Hc.
  - apply Qgt_alt in Hc. right. split; [reflexivity|]. apply Qlt_le_weak, Hc.
Qed.

Lemma round2_value (x : Q) :
  (round2 x == inject_Z (round_half_even (x * inject_Z 100)) * (1 # 100))%Q.
Proof.
  unfold round2. rewrite Qred_correct. unfold Qeq. simpl. lia.
Qed.

Lemma round2_close (x : Q) :
  (x - (1 # 200) <= round2 x)%Q ∧ (round2 x <= x + (1 # 200))%Q.
Proof.
  rewrite round2_value.
  pose proof (Qfloor_le (x * inject_Z 100)) as Hlo.
  pose proof (Qlt_floor (x * inject_Z 100)) as Hhi.
  rewrite inject_Z_plus in Hhi.
  destruct (round_half_even_cases (x * inject_Z 100)) as [[-> H]|[-> H]].
  - set (f := inject_Z (Qfloor (x * inject_Z 100))) in *.
    change (inject_Z 100) with (100 # 1)%Q in *. change (inject_Z 1) with 1%Q in *.
    split; lra.
  - rewrite inject_Z_plus.
    set (f := inject_Z (Qfloor (x * inject_Z 100))) in *.
    change (inject_Z 100) with (100 # 1)%Q in *. change (inject_Z 1) with 1%Q in *.
    split; lra.
Qed.

Lemma round2_nonneg (x : Q) : (0 <= x)%Q → (0 <= round2 x)%Q.
Proof.
  intros Hx. rewrite round2_value.
  assert (0 ≤ Qfloor (x * inject_Z 100)) as Hf.
  { change 0 with (Qfloor 0). apply Qfloor_resp_le.
    change (inject_Z 100) with (100 # 1)%Q. lra. }
  assert (0 ≤ round_half_even (x * inject_Z 100)) as Hk.
  { destruct (round_half_even_cases (x * inject_Z 100)) as [[-> _]|[-> _]]; lia. }
  assert (inject_Z 0 <= inject_Z (round_half_even (x * inject_Z 100)))%Q as Hq
    by (rewrite <- Zle_Qle; exact Hk).
  change (inject_Z 0) with 0%Q in Hq.
  set (k := inject_Z (round_half_even (x * inject_Z 100))) in *. lra.
Qed.


(** C4, as the builders have it: every envelope holds exactly one of [data]
    (with [success] true) and [error] (with [success] false).  Its metadata
    always holds the timestamp; it holds the request id exactly when a
    non-empty one was passed; the success envelope holds
    [execution_time_ms], rounded to two decimals, exactly when an execution
    time was passed, and the error envelope never holds it.  Rounding moves
    a value by at most 0.005, yields a multiple of 0.01, and keeps a
    non-negative time non-negative. *)
Theorem envelope_shape (now : string) (data : Value) (error : PyException)
    (rid : option string) (t : option Q) (tb : bool) :
  let s := format_success_response now data rid t in
  let e := format_error_response now error rid tb in
  (s !! "success" = Some (VBool true) ∧ s !! "data" = Some data
   ∧ s !! "error" = None)
  ∧ (e !! "success" = Some (VBool false) ∧ is_Some (e !! "error")
     ∧ e !! "data" = None)
  ∧ (lookup2 s "metadata" "timestamp" = Some (VStr now)
     ∧ lookup2 e "metadata" "timestamp" = Some (VStr now))
  ∧ (∀ r, rid = Some r → r ≠ "" →
       lookup2 s "metadata" "request_id" = Some (VStr r)
       ∧ lookup2 e "metadata" "request_id" = Some (VStr r))
  ∧ (rid = None ∨ rid = Some "" →
       lookup2 s "metadata" "request_id" = None
       ∧ lookup2 e "metadata" "request_id" = None)
  ∧ lookup2 s "metadata" "execution_time_ms" = (λ x, VFloat (round2 x)) <$> t
  ∧ lookup2 e "metadata" "execution_time_ms" = None
  ∧ (∀ x : Q,
       ((x - (1 # 200) <= round2 x)%Q ∧ (round2 x <= x + (1 # 200))%Q)
       ∧ (∃ k : Z, (round2 x == k # 100)%Q)
       ∧ ((0 <= x)%Q → (0 <= round2 x)%Q)).
Proof.
  intros s e.
  destruct (success_metadata now data rid t) as (Hs1 & Hs2 & Hs3).
  destruct (error_metadata now error rid tb) as (He1 & He2 & He3).
  split; [apply success_envelope_top|].
  split; [apply error_envelope_top|].
  split; [split; assumption|].
  split; [|split; [|split; [exact Hs3|split; [exact He3|]]]].
  - intros r -> Hr. subst s e. rewrite Hs2, He2.
    destruct r; [congruence|]. split; reflexivity.
  - intros [->| ->]; subst s e; rewrite Hs2, He2; split; reflexivity.
  - intros x. split; [apply round2_close|]. split; [|apply round2_nonneg].
    exists (round_half_even (x * inject_Z 100)). unfold round2.
    apply Qred_correct.
Qed.

Lemma envelope_shape_witness :
  lookup2 (format_success_response "now" VNone (Some "req_7") (Some (5 # 4)%Q))
    "metadata" "request_id" = Some (VStr "req_7")
  ∧ lookup2 (format_error_response "now"
               (ExNative (OtherException "ValueError" "bad")) None false)
      "metadata" "request_id" = None
  ∧ (0 <= round2 (5 # 4))%Q.
Proof.
  split; [|split].
  - destruct (envelope_shape "now" VNone
                (ExNative (OtherException "ValueError" "bad"))
                (Some "req_7") (Some (5 # 4)%Q) false)
      as (_ & _ & _ & H & _).
    destruct (H "req_7" eq_refl) as [H1 _]; [discriminate|exact H1].
  - destruct (envelope_shape "now" VNone
                (ExNative (OtherException "ValueError" "bad"))
                None (Some (5 # 4)%Q) false)
      as (_ & _ & _ & _ & H & _).
    destruct H as [_ H2]; [left; reflexivity|exact H2].
  - destruct (envelope_shape "now" VNone
                (ExNative (OtherException "ValueError" "bad"))
                None None false)
      as (_ & _ & _ & _ & _ & _ & _ & H).
    destruct (H (5 # 4)%Q) as (_ & _ & Hnn). apply Hnn. discriminate.
Defined.

(** C4 as stated fails: the error envelope has no [execution_time_ms] in
    its metadata, even when a request id is given; and the success envelope
    that the handlers build, [format_success_response(data)], has neither
    a request id nor an execution time. *)
Lemma envelope_metadata_incomplete :
  ¬ is_Some (lookup2 (format_error_response "2025-01-01T00:00:00+00:00"
                        (ExNative (OtherException "ValueError" "bad"))
                        (Some "req_1") false)
               "metadata" "execution_time_ms")
  ∧ ¬ is_Some (lookup2 (format_success_response "2025-01-01T00:00:00+00:00"
                          (VInt 1) None None)
                 "metadata" "request_id")
  ∧ ¬ is_Some (lookup2 (format_success_response "2025-01-01T00:00:00+00:00"
                          (VInt 1) None None)
                 "metadata" "execution_time_ms").
Proof.
  repeat split; intros [v Hv]; discriminate Hv.
Qed.

(** C10: for an exception that is not an [AIDPError] the error envelope has
    the class name as [type] and [str(error)] as [message], and neither
    [details] nor [original_error], whatever [include_traceback] is; for an
    [AIDPError], [original_error] is present exactly when
    [include_traceback] is set and the error wraps a cause, and it is then
    the string form of that cause. *)
Theorem error_envelope_fields (now : string) (rid : option string) (tb : bool) :
  (∀ n : PyExc,
     let e := format_error_response now (ExNative n) rid tb in
     lookup2 e "error" "type" = Some (VStr (pyexc_class_name n))
     ∧ lookup2 e "error" "message" = Some (VStr (pyexc_str n))
     ∧ lookup2 e "error" "details" = None
     ∧ lookup2 e "error" "original_error" = None)
  ∧ (∀ a : AIDPError,
       let e := format_error_response now (ExAIDP a) rid tb in
       (is_Some (lookup2 e "error" "original_error") ↔
          tb = true ∧ is_Some (original_error a))
       ∧ (∀ o, tb = true → original_error a = Some o →
            lookup2 e "error" "original_error" = Some (VStr (pyexc_str o)))).
Proof.
  split; [intros n; apply error_data_native|].
  intros a e. destruct (error_data_aidp now a rid tb) as (_ & _ & _ & H).
  subst e. rewrite H. split.
  - destruct tb, (original_error a) as [o|]; simpl; split.
    + intros _. split; [reflexivity|eexists; reflexivity].
    + intros _. eexists; reflexivity.
    + intros [v Hv]; discriminate.
    + intros [_ [v Hv]]; discriminate.
    + intros [v Hv]; discriminate.
    + intros [Hf _]; discriminate.
    + intros [v Hv]; discriminate.
    + intros [Hf _]; discriminate.
  - intros o -> ->. reflexivity.
Qed.

Lemma error_envelope_fields_witness :
  lookup2 (format_error_response "now"
             (ExAIDP (oci_client.classify_exception samples.not_found))
             (Some "req_1") true)
    "error" "original_error" = Some (VStr "{'status': 404}").
Proof.
  destruct (error_envelope_fields "now" (Some "req_1") true) as [_ H].
  destruct (H (oci_client.classify_exception samples.not_found)) as [_ H2].
  apply (H2 samples.not_found); reflexivity.
Defined.

End envelopes.

(** ** Required fields *)

Section validation.
Import validators observe.

Lemma field_missing_spec (data : pydict) (f : string) :
  field_missing data f = true ↔ data !! f = None ∨ data !! f = Some VNone.
Proof.
  unfold field_missing. destruct (data !! f) as [v|]; [|tauto].
  destruct v; simpl; split; intros H; try discriminate; try tauto;
    destruct H as [H|H]; discriminate.
Qed.

Lemma filter_sublist {A} (p : A → bool) (l : list A) :
  sublist (List.filter p l) l.
Proof.
  induction l as [|x l IH]; simpl; [constructor|].
  destruct (p x); constructor; exact IH.
Qed.

Lemma api_calls_app (a b : list Event) :
  api_calls (a ++ b) = api_calls a ++ api_calls b.
Proof.
  induction a as [|ev a IH]; simpl; [reflexivity|].
  destruct ev; simpl; rewrite IH; reflexivity.
Qed.

Lemma handlers_app (a b : list Event) :
  handlers (a ++ b) = handlers a ++ handlers b.
Proof.
  induction a as [|ev a IH]; simpl; [reflexivity|].
  destruct ev; simpl; rewrite IH; reflexivity.
Qed.

Lemma api_names_app (a b : list Event) :
  api_names (a ++ b) = api_names a ++ api_names b.
Proof.
  induction a as [|ev a IH]; simpl; [reflexivity|].
  destruct ev; simpl; rewrite IH; reflexivity.
Qed.

(** C3: [validate_required_fields] raises a Validation error whose
    [missing_fields] are all the required fields that are absent from the
    arguments or null there, in the order of the requirement, and returns
    normally when there is none.  Dispatching [get_bucket_details] with no
    arguments answers with the error envelope of that Validation error,
    [missing_fields] being [["bucket_name"]]; the storage handler was
    entered and no SDK function was invoked. *)
Theorem validate_required_fields_lists_all (data : pydict)
    (required_fields : list string) :
  (∃ missing : list string,
     sublist missing required_fields
     ∧ (∀ f, f ∈ missing ↔
             f ∈ required_fields ∧ (data !! f = None ∨ data !! f = Some VNone))
     ∧ validate_required_fields data required_fields =
         match missing with
         | [] => Ok tt
         | _ :: _ =>
             Raise (ExAIDP (mkAIDPError Validation "Missing required fields"
                      {[ "missing_fields" := VList (VStr <$> missing) ]} None))
         end)
  ∧ (∀ (env : Env) (w : World) (arguments : option pydict),
       arguments = None ∨ arguments = Some ∅ →
       ∃ envelope w',
         server.handle_call_tool env "get_bucket_details" arguments w =
           (Ok envelope, w')
         ∧ envelope !! "success" = Some (VBool false)
         ∧ envelope !! "data" = None
         ∧ lookup2 envelope "error" "type" = Some (VStr (class_name Validation))
         ∧ lookup2 envelope "error" "message" =
             Some (VStr "Missing required fields")
         ∧ lookup2 envelope "error" "details" =
             Some (VDict {[ "missing_fields" := VList [VStr "bucket_name"] ]})
         ∧ trace w' = trace w ++ [EvHandler storage "get_bucket_details"]
         ∧ api_calls (trace w') = api_calls (trace w)).
Proof.
  split.
  - exists (List.filter (field_missing data) required_fields).
    split; [apply filter_sublist|]. split.
    + intros f. rewrite !list_elem_of_In, filter_In, field_missing_spec.
      reflexivity.
    + unfold validate_required_fields.
      destruct (List.filter (field_missing data) required_fields); reflexivity.
  - intros env w arguments Hargs.
    assert (default ∅ arguments = (∅ : pydict)) as Hd
      by (destruct Hargs as [-> | ->]; reflexivity).
    eexists _, _. split.
    { unfold server.handle_call_tool. rewrite Hd.
      unfold mbind, M_bind, read_time, try, server.dispatch. simpl.
      reflexivity. }
    match goal with
    | |- context [formatters.format_error_response ?now (ExAIDP ?a) ?rid ?tb] =>
        destruct (error_data_aidp now a rid tb) as (Ht & Hm & Hdt & _);
        destruct (error_envelope_top now (ExAIDP a) rid tb) as (Hs & _ & Hnd)
    end.
    split; [exact Hs|]. split; [exact Hnd|]. split; [exact Ht|].
    split; [exact Hm|]. split; [rewrite Hdt; reflexivity|].
    split; [reflexivity|].
    simpl. rewrite api_calls_app. simpl. apply app_nil_r.
Qed.

Lemma validate_required_fields_lists_all_witness :
  ∃ envelope w',
    server.handle_call_tool samples.env_ok "get_bucket_details" (Some ∅)
      samples.w0 = (Ok envelope, w')
    ∧ lookup2 envelope "error" "details" =
        Some (VDict {[ "missing_fields" := VList [VStr "bucket_name"] ]})
    ∧ api_calls (trace w') = [].
Proof.
  destruct (validate_required_fields_lists_all ∅ []) as [_ H].
  destruct (H samples.env_ok samples.w0 (Some ∅)) as
    (envelope & w' & Hrun & _ & _ & _ & _ & Hd & _ & Hc);
    [right; reflexivity|].
  exists envelope, w'. split; [exact Hrun|]. split; [exact Hd|exact Hc].
Defined.

End validation.

(** ** Bucket names *)

Section bucket_names.
Import validators.

Lemma str_app_cons (c : ascii) (a b : string) :
  String c a +:+ b = String c (a +:+ b).
Proof. reflexivity. Qed.

Lemma str_app_nil (b : string) : "" +:+ b = b.
Proof. reflexivity. Qed.

Ltac sapp := rewrite ?str_app_cons, ?str_app_nil in *.

Lemma prefix_spec (p s : string) :
  String.prefix p s = true ↔ ∃ r, s = p +:+ r.
Proof.
  revert s. induction p as [|c p IH]; intros s.
  - split; [intros _; exists s; reflexivity|intros _; destruct s; reflexivity].
  - destruct s as [|d s]; simpl;
      [split; [discriminate|intros [r Hr]; discriminate]|].
    destruct (Ascii.ascii_dec c d) as [->|Hne].
    + rewrite IH. split; intros [r Hr]; exists r; sapp; congruence.
    + split; [discriminate|intros [r Hr]; sapp; congruence].
Qed.

Lemma endswith_spec (s suf : string) :
  endswith s suf = true ↔ ∃ r, s = r +:+ suf.
Proof.
  induction s as [|c s IH]; cbn [endswith].
  - rewrite orb_false_r, String.eqb_eq. split.
    + intros <-. exists "". reflexivity.
    + intros [[|d r] Hr]; sapp; [congruence|discriminate].
  - rewrite orb_true_iff, String.eqb_eq, IH. split.
    + intros [<-|[r ->]]; [exists ""; reflexivity|exists (String c r); reflexivity].
    + intros [[|d r] Hr]; sapp; [left; congruence|].
      right. exists r. congruence.
Qed.

Lemma str_contains_spec (needle hay : string) :
  str_contains needle hay = true ↔ ∃ a b, hay = a +:+ needle +:+ b.
Proof.
  induction hay as [|c hay IH].
  - cbn [str_contains]. rewrite orb_false_r, prefix_spec. split.
    + intros [r Hr]. exists "", r. exact Hr.
    + intros [[|d a] [b Hb]]; sapp; [exists b; exact Hb|discriminate].
  - cbn [str_contains]. rewrite orb_true_iff, prefix_spec, IH. split.
    + intros [[r Hr]|(a & b & ->)]; [exists "", r; exact Hr|].
      exists (String c a), b. reflexivity.
    + intros [[|d a] [b Hb]]; sapp; [left; exists b; exact Hb|].
      right. exists a, b. congruence.
Qed.

(** All characters of a string satisfy a class. *)
Lemma span_class_spec (cls : ascii → bool) (s : string) :
  ∃ body rest,
    span_class cls s = (body, rest) ∧ s = body +:+ rest
    ∧ (∀ a c b, body = a +:+ String c b → cls c = true)
    ∧ (rest = "" ∨ ∃ c r, rest = String c r ∧ cls c = false).
Proof.
  induction s as [|c s (body & rest & Hsp & Hs & Hall & Hrest)]; simpl.
  - exists "", "". repeat split; [|left; reflexivity].
    intros [|d a] c b Hb; discriminate.
  - destruct (cls c) eqn:Hc.
    + rewrite Hsp. exists (String c body), rest. split; [reflexivity|].
      split; [sapp; congruence|]. split; [|exact Hrest].
      intros [|d a] c' b Hb; sapp; injection Hb as -> Hb.
      * exact Hc.
      * eapply Hall. exact Hb.
    + exists "", (String c s). repeat split.
      * intros [|d a] c' b Hb; discriminate.
      * right. exists c, s. split; [reflexivity|exact Hc].
Qed.

Lemma append_nil_r (s : string) : s +:+ "" = s.
Proof. induction s; sapp; congruence. Qed.

Lemma append_assoc (a b c : string) : (a +:+ b) +:+ c = a +:+ b +:+ c.
Proof. induction a; sapp; congruence. Qed.

Lemma append_inv_head (a b c : string) : a +:+ b = a +:+ c → b = c.
Proof. induction a; sapp; [tauto|]. intros [= H]. auto. Qed.

Lemma bucket_char_LF : bucket_char LF = false.
Proof. reflexivity. Qed.






(** The pattern of the invalid-character rule ends in [$], which also
    matches before a final newline: such a name is accepted. *)
Example bucket_name_trailing_newline_accepted :
  validate_bucket_name ("bucket" +:+ String LF "") = Ok tt.
Proof. reflexivity. Qed.

End bucket_names.

(** ** The dispatcher *)

Section dispatcher.
Import server observe.

Lemma handle_call_tool_native (env : Env) (name : string)
    (arguments : option pydict) (w w2 : World) (n : PyExc) :
  dispatch env name (default ∅ arguments) (started w) = (Raise (ExNative n), w2) →
  ∃ envelope,
    handle_call_tool env name arguments w =
      (Ok envelope, mkWorld (oci w2) (trace w2) (S (clock_reads w2)))
    ∧ envelope !! "success" = Some (VBool false)
    ∧ envelope !! "data" = None
    ∧ lookup2 envelope "error" "type" = Some (VStr "UnexpectedError")
    ∧ lookup2 envelope "error" "message" = Some (VStr (pyexc_str n))
    ∧ lookup2 envelope "metadata" "request_id" =
        Some (VStr (request_id_of (time_time env (clock_reads w)))).
Proof.
  intros H. eexists. split.
  - unfold handle_call_tool, mbind, M_bind, read_time, try.
    fold (started w). rewrite H. simpl. reflexivity.
  - repeat split.
Qed.

Lemma handle_call_tool_aidp (env : Env) (name : string)
    (arguments : option pydict) (w w2 : World) (a : AIDPError) :
  dispatch env name (default ∅ arguments) (started w) = (Raise (ExAIDP a), w2) →
  handle_call_tool env name arguments w =
    (Ok (formatters.format_error_response
           (now_iso env (S (clock_reads w2))) (ExAIDP a)
           (Some (request_id_of (time_time env (clock_reads w))))
           (String.eqb (logging_level (settings (oci w2))) "DEBUG")),
     mkWorld (oci w2) (trace w2) (S (S (clock_reads w2)))).
Proof.
  intros H.
  unfold handle_call_tool, mbind, M_bind, read_time, try.
  fold (started w). rewrite H. simpl. reflexivity.
Qed.




(** C5, what the server does: for a tool name that no branch of the routing
    chain accepts, [handle_call_tool] answers with an envelope whose
    [success] is false and whose [error.type] is "UnexpectedError" (the
    [ValueError] "Unknown tool: ..." is caught by the handler for unexpected
    errors), and no handler module is entered: nothing is added to the
    trace. *)
Theorem unknown_tool_is_unexpected_error (env : Env) (name : string)
    (arguments : option pydict) (w : World) :
  route name = None →
  ∃ envelope w',
    handle_call_tool env name arguments w = (Ok envelope, w')
    ∧ envelope !! "success" = Some (VBool false)
    ∧ envelope !! "data" = None
    ∧ lookup2 envelope "error" "type" = Some (VStr "UnexpectedError")
    ∧ lookup2 envelope "error" "type" ≠ Some (VStr (class_name Validation))
    ∧ lookup2 envelope "error" "message" = Some (VStr ("Unknown tool: " +:+ name))
    ∧ trace w' = trace w
    ∧ handlers (trace w') = handlers (trace w).
Proof.
  intros Hr.
  destruct (handle_call_tool_native env name arguments w (started w)
              (OtherException "ValueError" ("Unknown tool: " +:+ name)))
    as (envelope & Hrun & Hs & Hd & Ht & Hm & _).
  { unfold dispatch. rewrite Hr. reflexivity. }
  exists envelope, (mkWorld (oci (started w)) (trace (started w))
                      (S (clock_reads (started w)))).
  split; [exact Hrun|]. split; [exact Hs|]. split; [exact Hd|].
  split; [exact Ht|]. split; [rewrite Ht; discriminate|].
  split; [exact Hm|]. split; reflexivity.
Qed.

Lemma unknown_tool_is_unexpected_error_witness :
  ∃ envelope w',
    handle_call_tool samples.env_ok "foo" (Some ∅) samples.w0 = (Ok envelope, w')
    ∧ lookup2 envelope "error" "type" = Some (VStr "UnexpectedError")
    ∧ lookup2 envelope "error" "message" = Some (VStr "Unknown tool: foo")
    ∧ handlers (trace w') = [].
Proof.
  destruct (unknown_tool_is_unexpected_error samples.env_ok "foo" (Some ∅)
              samples.w0 eq_refl)
    as (envelope & w' & Hrun & _ & _ & Ht & _ & Hm & _ & Hh).
  exists envelope, w'. split; [exact Hrun|]. split; [exact Ht|].
  split; [exact Hm|exact Hh].
Defined.

(** The sibling path: a name that the routing chain sends to the storage
    module, but that is none of its tools, is answered with the envelope of
    a Validation error "Unknown tool: ...". *)
Example unknown_storage_tool_is_validation_error :
  ∃ envelope w',
    handle_call_tool samples.env_ok "get_bucket_size" (Some ∅) samples.w0 =
      (Ok envelope, w')
    ∧ lookup2 envelope "error" "type" = Some (VStr (class_name Validation))
    ∧ lookup2 envelope "error" "message" =
        Some (VStr "Unknown tool: get_bucket_size")
    ∧ handlers (trace w') = [storage].
Proof.
  eexists _, _. split.
  - apply (handle_call_tool_aidp samples.env_ok "get_bucket_size" (Some ∅)
             samples.w0
             (record_event (EvHandler storage "get_bucket_size")
                (started samples.w0))
             (init Validation "Unknown tool: get_bucket_size" None None)).
    reflexivity.
  - repeat split.
Qed.

(** A tool that the instance module lists and handles is not reached: no
    prefix of the routing chain fits its name. *)
Example listed_tool_not_routed : route "list_workspace_users" = None.
Proof. reflexivity. Qed.




End dispatcher.

(** ** What a computation adds to the trace *)

Section traces.
Import observe oci_client.

Lemma appends_only_ret {A} (P : Event → Prop) (a : A) :
  appends_only P (mret a : M A).
Proof.
  intros w r w1 [= <- <-]. exists []. split; [symmetry; apply app_nil_r|constructor].
Qed.

Lemma appends_only_bind {A B} (P : Event → Prop) (m : M A) (f : A → M B) :
  appends_only P m → (∀ a, appends_only P (f a)) → appends_only P (m ≫= f).
Proof.
  intros Hm Hf w r w2. unfold mbind, M_bind.
  destruct (m w) as [[a|e] w1] eqn:E; destruct (Hm _ _ _ E) as (ad1 & Ht1 & HP1).
  - intros H. destruct (Hf a _ _ _ H) as (ad2 & Ht2 & HP2).
    exists (ad1 ++ ad2). split.
    + rewrite Ht2, Ht1, app_assoc. reflexivity.
    + apply Forall_app. split; assumption.
  - intros [= <- <-]. exists ad1. split; assumption.
Qed.

Lemma appends_only_pure {A} (P : Event → Prop) (m : M A) :
  (∀ w, trace (snd (m w)) = trace w) → appends_only P m.
Proof.
  intros H w r w1 E. exists []. split; [|constructor].
  rewrite app_nil_r. specialize (H w). rewrite E in H. exact H.
Qed.

Lemma appends_only_lazy_client (env : Env) (P : Event → Prop) (s : Service) :
  (∀ h, P (EvConstruct s h)) → appends_only P (lazy_client env s).
Proof.
  intros HP w r w1. unfold lazy_client.
  destruct (get_client s (oci w)).
  - intros [= <- <-]. exists []. split; [symmetry; apply app_nil_r|constructor].
  - destruct (sdk_new env s (trace w)); intros [= <- <-]; eexists [_];
      (split; [reflexivity|]); repeat constructor; apply HP.
Qed.

Lemma appends_only_attempts {A} (P : Event → Prop) (retry : PyException → bool)
    (wait : nat → Z) (body : M A) :
  appends_only P body → (∀ d, P (EvSleep d)) →
  ∀ left n, appends_only P (tenacity.attempts retry wait body left n).
Proof.
  intros Hb Hs left. induction left as [|left IH]; intros n w r w1; simpl;
    destruct (body w) as [[a|e] w'] eqn:E;
    destruct (Hb _ _ _ E) as (ad & Ht & HP).
  - intros [= <- <-]. eauto.
  - destruct (retry e); simpl; intros [= <- <-]; eauto.
  - intros [= <- <-]. eauto.
  - destruct (retry e); simpl; [|intros [= <- <-]; eauto].
    intros H. destruct (IH _ _ _ _ H) as (ad2 & Ht2 & HP2).
    exists (ad ++ EvSleep (wait n) :: ad2). split.
    + rewrite Ht2. simpl. rewrite Ht, <- !app_assoc. reflexivity.
    + apply Forall_app. split; [exact HP|]. constructor; [apply Hs|exact HP2].
Qed.

Lemma appends_only_call_api (env : Env) (P : Event → Prop) (c : ApiCall) :
  P (EvApi c) → (∀ d, P (EvSleep d)) → appends_only P (call_api env c).
Proof.
  intros Hc Hs. apply appends_only_attempts; [|exact Hs].
  intros w r w1. unfold call_api_body.
  destruct (sdk_call env c (trace w)); intros [= <- <-]; exists [EvApi c];
    (split; [reflexivity|]); repeat constructor; exact Hc.
Qed.

Lemma calls_only_names (name : string) (added : list Event) :
  Forall (calls_only name) added → Forall (λ n, n = name) (api_names added).
Proof.
  induction 1 as [|ev added Hev _ IH]; simpl; [constructor|].
  destruct ev; simpl in *; try exact IH. constructor; assumption.
Qed.

End traces.

(** ** Moving an object *)

Section move.
Import observe oci_client storage_module.

Lemma success_appends_nothing (env : Env) (P : Event → Prop) (data : pydict) :
  appends_only P (success env data).
Proof. apply appends_only_pure. reflexivity. Qed.

Lemma copy_object_calls_only (env : Env) (sb so db dobj : Value) :
  appends_only (calls_only "copy_object") (copy_object env sb so db dobj).
Proof.
  unfold copy_object.
  apply appends_only_bind; [apply appends_only_pure; reflexivity|intros rg].
  apply appends_only_bind; [apply appends_only_pure; reflexivity|intros ns].
  apply appends_only_bind;
    [apply appends_only_lazy_client; intros; exact I|intros h].
  apply appends_only_bind; [apply appends_only_pure; reflexivity|intros ns'].
  apply appends_only_bind;
    [apply appends_only_call_api; [reflexivity|intros; exact I]|intros resp].
  apply success_appends_nothing.
Qed.

(** C7, as the handler has it: when the copy step raises, [move_object]
    raises the same exception, leaves the world as the copy left it, and no
    [delete_object] call was made; when the copy succeeds and the delete
    step raises, [move_object] raises that exception; so the success result
    "Object moved successfully" is returned only when both steps returned.
    The exception is passed on as the step raised it. *)
Theorem move_object_failure (env : Env) (sb so db dobj : Value) (w : World) :
  let copy := copy_object env sb so db dobj in
  let delete := delete_object env sb so in
  let move := move_object env sb so db dobj in
  (∀ x w1, copy w = (Raise x, w1) →
     move w = (Raise x, w1)
     ∧ ∃ added, trace w1 = trace w ++ added
                ∧ "delete_object" ∉ api_names added)
  ∧ (∀ v w1 x w2, copy w = (Ok v, w1) → delete w1 = (Raise x, w2) →
       move w = (Raise x, w2))
  ∧ (∀ r w', move w = (Ok r, w') →
       (∃ v1 w1 v2 w2, copy w = (Ok v1, w1) ∧ delete w1 = (Ok v2, w2))
       ∧ lookup2 r "data" "message" = Some (VStr "Object moved successfully")).
Proof.
  intros copy delete move. subst copy delete move. split; [|split].
  - intros x w1 H. split.
    + unfold move_object, mbind, M_bind. rewrite H. reflexivity.
    + destruct (copy_object_calls_only env sb so db dobj _ _ _ H)
        as (added & Ht & HP).
      exists added. split; [exact Ht|].
      apply calls_only_names in HP. rewrite Forall_forall in HP.
      intros Hin. apply HP in Hin. discriminate Hin.
  - intros v w1 x w2 H1 H2.
    unfold move_object, mbind, M_bind. rewrite H1, H2. reflexivity.
  - intros r w'. unfold move_object, mbind, M_bind.
    destruct (copy_object env sb so db dobj w) as [[v1|e1] w1] eqn:E1;
      [|discriminate].
    destruct (delete_object env sb so w1) as [[v2|e2] w2] eqn:E2;
      [|discriminate].
    intros [= <- <-]. split; [|reflexivity].
    exists v1, w1, v2, w2. split; [reflexivity|exact E2].
Qed.

Lemma move_object_failure_witness :
  move_object samples.env_copy_fails (VStr "a") (VStr "x") (VStr "b") (VStr "y")
    samples.w0
  = (Raise (ExAIDP (classify_exception samples.boom)),
     snd (copy_object samples.env_copy_fails (VStr "a") (VStr "x") (VStr "b")
            (VStr "y") samples.w0)).
Proof.
  destruct (move_object_failure samples.env_copy_fails (VStr "a") (VStr "x")
              (VStr "b") (VStr "y") samples.w0) as (H & _ & _).
  destruct (H (ExAIDP (classify_exception samples.boom))
              (snd (copy_object samples.env_copy_fails (VStr "a") (VStr "x")
                      (VStr "b") (VStr "y") samples.w0)) eq_refl)
    as [Hm _].
  exact Hm.
Defined.

(** C7 as stated fails: the exception that [move_object] raises does not
    tell which step failed.  With one backend the copy fails, with another
    the copy succeeds and the delete fails, and [move_object] raises the
    same error in both runs. *)
Lemma move_object_error_hides_step :
  let r1 := move_object samples.env_copy_fails (VStr "a") (VStr "x")
              (VStr "b") (VStr "y") samples.w0 in
  let r2 := move_object samples.env_delete_fails (VStr "a") (VStr "x")
              (VStr "b") (VStr "y") samples.w0 in
  fst r1 = Raise (ExAIDP (classify_exception samples.boom))
  ∧ fst r2 = Raise (ExAIDP (classify_exception samples.boom))
  ∧ api_names (trace (snd r1)) = ["copy_object"]
  ∧ api_names (trace (snd r2)) = ["copy_object"; "delete_object"].
Proof. repeat split. Qed.

End move.

(** ** Lazily built clients *)

Section clients.
Import observe oci_client event_loop.

Lemma get_set_same (s : Service) (h : option Handle) (c : OCIClient) :
  get_client s (set_client s h c) = h.
Proof. destruct s; reflexivity. Qed.

Lemma get_set_other (s s' : Service) (h : option Handle) (c : OCIClient) :
  s ≠ s' → get_client s' (set_client s h c) = get_client s' c.
Proof. destruct s, s'; intros H; try reflexivity; congruence. Qed.

Lemma constructions_app (s : Service) (a b : list Event) :
  constructions s (a ++ b) = constructions s a ++ constructions s b.
Proof.
  induction a as [|ev a IH]; simpl; [reflexivity|].
  destruct ev as [s' [h|]| | |]; simpl; try exact IH.
  destruct (decide (s' = s)); simpl; rewrite IH; reflexivity.
Qed.

Lemma fresh_consistent (st : Settings) : consistent (fresh st).
Proof. intros s. destruct s; reflexivity. Qed.

(** A cached client is returned as it is. *)
Lemma lazy_client_cached (env : Env) (s : Service) (w : World) (h : Handle) :
  get_client s (oci w) = Some h → lazy_client env s w = (Ok h, w).
Proof. intros H. unfold lazy_client. rewrite H. reflexivity. Qed.

Lemma lazy_client_step (env : Env) (s : Service) (w w1 : World)
    (r : Result Handle) :
  lazy_client env s w = (r, w1) →
  (∀ s' h', get_client s' (oci w) = Some h' → get_client s' (oci w1) = Some h')
  ∧ (consistent w → consistent w1)
  ∧ (∀ h, r = Ok h → get_client s (oci w1) = Some h)
  ∧ ((∀ tr, sdk_new env s tr = None) → ∃ h, r = Ok h).
Proof.
  unfold lazy_client. destruct (get_client s (oci w)) as [h0|] eqn:Hc.
  - intros [= <- <-]. repeat split; eauto. intros h [= <-]. exact Hc.
  - destruct (sdk_new env s (trace w)) as [exc|] eqn:Hn; intros [= <- <-].
    + split; [tauto|]. split; [|split; [discriminate|]].
      * intros Hw s'. simpl. rewrite constructions_app, Hw. simpl.
        apply app_nil_r.
      * intros Hall. rewrite Hall in Hn. discriminate.
    + split; [|split; [|split]].
      * intros s' h' H. simpl. destruct (decide (s = s')) as [<-|Hne];
          [congruence|]. rewrite get_set_other by exact Hne. exact H.
      * intros Hw s'. simpl. rewrite constructions_app, Hw. simpl.
        destruct (decide (s = s')) as [<-|Hne].
        -- rewrite get_set_same, Hc. reflexivity.
        -- rewrite get_set_other by exact Hne. apply app_nil_r.
      * intros h [= <-]. simpl. apply get_set_same.
      * intros _. eauto.
Qed.

Lemma call_api_body_keeps_clients (env : Env) (c : ApiCall) (w w1 : World)
    (r : Result Value) :
  call_api_body env c w = (r, w1) →
  oci w1 = oci w ∧ ∀ s, constructions s (trace w1) = constructions s (trace w).
Proof.
  unfold call_api_body.
  destruct (sdk_call env c (trace w)); intros [= <- <-]; (split; [reflexivity|]);
    intros s; simpl; rewrite constructions_app; apply app_nil_r.
Qed.

Lemma attempts_keeps_clients (env : Env) (c : ApiCall) (left n : nat)
    (w w1 : World) (r : Result Value) :
  tenacity.attempts call_api_retry_if call_api_wait (call_api_body env c)
    left n w = (r, w1) →
  oci w1 = oci w ∧ ∀ s, constructions s (trace w1) = constructions s (trace w).
Proof.
  revert n w. induction left as [|left IH]; intros n w; simpl;
    destruct (call_api_body env c w) as [[a|e] w'] eqn:E;
    destruct (call_api_body_keeps_clients _ _ _ _ _ E) as [Ho Hc].
  - intros [= <- <-]. split; assumption.
  - destruct (call_api_retry_if e); simpl; intros [= <- <-]; split; assumption.
  - intros [= <- <-]. split; assumption.
  - destruct (call_api_retry_if e); simpl;
      [|intros [= <- <-]; split; assumption].
    intros H. apply IH in H. destruct H as [Ho2 Hc2]. split.
    + rewrite Ho2. exact Ho.
    + intros s. rewrite Hc2. simpl. rewrite constructions_app, Hc. simpl.
      apply app_nil_r.
Qed.

Lemma call_api_keeps_clients (env : Env) (c : ApiCall) (w w1 : World)
    (r : Result Value) :
  call_api env c w = (r, w1) →
  oci w1 = oci w ∧ ∀ s, constructions s (trace w1) = constructions s (trace w).
Proof. apply attempts_keeps_clients. Qed.

(** Along a schedule the cache only grows and stays consistent. *)
Lemma run_schedule_invariant (env : Env) (sched : schedule) (w : World) :
  consistent w →
  let run := run_schedule env sched w in
  consistent (snd run)
  ∧ (∀ s h, get_client s (oci w) = Some h → get_client s (oci (snd run)) = Some h)
  ∧ (∀ t s h, (t, Got s (Ok h)) ∈ fst run → get_client s (oci (snd run)) = Some h)
  ∧ (∀ s, (∀ tr, sdk_new env s tr = None) →
       ∀ t r, (t, Got s r) ∈ fst run → ∃ h, r = Ok h)
  ∧ (∀ t s, (t, Access s) ∈ sched → ∃ r, (t, Got s r) ∈ fst run).
Proof.
  revert w. induction sched as [|[t [s|c]] rest IH]; intros w Hw; simpl.
  - split; [exact Hw|]. split; [tauto|].
    split; [intros t s h H; inversion H|].
    split; [intros s _ t r H; inversion H|intros t s H; inversion H].
  - destruct (lazy_client env s w) as [r w1] eqn:E.
    destruct (lazy_client_step _ _ _ _ _ E) as (Hkeep & Hcons & Hgot & Hok).
    specialize (IH w1 (Hcons Hw)).
    destruct (run_schedule env rest w1) as [obs w2]. simpl in *.
    destruct IH as (IH1 & IH2 & IH3 & IH4 & IH5).
    split; [exact IH1|]. split; [intros s' h' H; apply IH2, Hkeep, H|].
    split; [|split].
    + intros t' s' h' Hin. apply elem_of_cons in Hin as [[= -> -> <-]|Hin].
      * apply IH2, Hgot. reflexivity.
      * eapply IH3, Hin.
    + intros s' Hall t' r' Hin. apply elem_of_cons in Hin as [[= -> -> ->]|Hin].
      * apply Hok, Hall.
      * eapply IH4; eassumption.
    + intros t' s' Hin. apply elem_of_cons in Hin as [[= -> ->]|Hin].
      * exists r. left.
      * destruct (IH5 _ _ Hin) as [r' Hr']. exists r'. right. exact Hr'.
  - destruct (call_api env c w) as [r w1] eqn:E.
    destruct (call_api_keeps_clients _ _ _ _ _ E) as [Ho Hc].
    assert (consistent w1) as Hw1.
    { intros s. rewrite Hc, Ho. apply Hw. }
    specialize (IH w1 Hw1).
    destruct (run_schedule env rest w1) as [obs w2]. simpl in *.
    destruct IH as (IH1 & IH2 & IH3 & IH4 & IH5).
    split; [exact IH1|].
    split; [intros s' h' H; apply IH2; rewrite Ho; exact H|].
    split; [|split].
    + intros t' s' h' Hin. apply elem_of_cons in Hin as [Heq|Hin];
        [discriminate Heq|]. eapply IH3, Hin.
    + intros s' Hall t' r' Hin. apply elem_of_cons in Hin as [Heq|Hin];
        [discriminate Heq|]. eapply IH4; eassumption.
    + intros t' s' Hin. apply elem_of_cons in Hin as [Heq|Hin];
        [discriminate Heq|].
      destruct (IH5 _ _ Hin) as [r' Hr']. exists r'. right. exact Hr'.
Qed.


(** C6, on the event loop: start from a new [OCIClient] and let any number
    of tasks access the lazy client properties and call the SDK, in any
    interleaving of whole accesses and calls.  For each service at most one
    client is ever constructed; every access that returns, returns that one
    client; if the constructor does not fail and some task accesses the
    service, exactly one construction happens and every access returns its
    client.  After [close] the cache is empty and the next successful
    access constructs a new client. *)
Theorem single_construction (env : Env) (st : Settings) (sched : schedule)
    (s : Service) :
  let run := run_schedule env sched (fresh st) in
  (length (constructions s (trace (snd run))) ≤ 1)%nat
  ∧ (∀ t h, (t, Got s (Ok h)) ∈ fst run →
       constructions s (trace (snd run)) = [h])
  ∧ (∀ t1 h1 t2 h2, (t1, Got s (Ok h1)) ∈ fst run →
       (t2, Got s (Ok h2)) ∈ fst run → h1 = h2)
  ∧ ((∀ tr, sdk_new env s tr = None) → (∃ t, (t, Access s) ∈ sched) →
       ∃ h, constructions s (trace (snd run)) = [h]
            ∧ ∀ t r, (t, Got s r) ∈ fst run → r = Ok h)
  ∧ (∀ w, get_client s (oci (snd (close w))) = None)
  ∧ (∀ w h w', lazy_client env s (snd (close w)) = (Ok h, w') →
       trace w' = trace w ++ [EvConstruct s (Some h)]).
Proof.
  intros run.
  destruct (run_schedule_invariant env sched (fresh st) (fresh_consistent st))
    as (Hcons & _ & Hgot & Hok & Hacc).
  fold run in Hcons, Hgot, Hok, Hacc.
  assert (∀ t h, (t, Got s (Ok h)) ∈ fst run →
            constructions s (trace (snd run)) = [h]) as Hone.
  { intros t h Hin. rewrite (Hcons s), (Hgot _ _ _ Hin). reflexivity. }
  split; [|split; [exact Hone|split; [|split; [|split]]]].
  - rewrite (Hcons s). destruct (get_client s (oci (snd run))); simpl; lia.
  - intros t1 h1 t2 h2 H1 H2. apply Hone in H1, H2. congruence.
  - intros Hnew [t Hin]. destruct (Hacc _ _ Hin) as [r Hr].
    destruct (Hok s Hnew _ _ Hr) as [h ->]. exists h.
    split; [eapply Hone, Hr|].
    intros t' r' Hr'. destruct (Hok s Hnew _ _ Hr') as [h' ->].
    apply Hone in Hr, Hr'. congruence.
  - intros w. destruct s; reflexivity.
  - intros w h w'. unfold lazy_client.
    replace (get_client s (oci (snd (close w)))) with (@None Handle)
      by (destruct s; reflexivity).
    destruct (sdk_new env s (trace (snd (close w)))); [discriminate|].
    intros [= <- <-]. reflexivity.
Qed.

Lemma single_construction_witness :
  ∃ h, constructions ObjectStorage
         (trace (snd (run_schedule samples.env_ok
                        [(0%nat, Access ObjectStorage);
                         (1%nat, Access ObjectStorage);
                         (2%nat, Access ObjectStorage)]
                        (fresh samples.st0)))) = [h].
Proof.
  destruct (single_construction samples.env_ok samples.st0
              [(0%nat, Access ObjectStorage); (1%nat, Access ObjectStorage);
               (2%nat, Access ObjectStorage)] ObjectStorage)
    as (_ & _ & _ & H & _).
  destruct H as (h & Hh & _).
  - intros tr. reflexivity.
  - exists 0%nat. left.
  - exists h. exact Hh.
Defined.

End clients.

(** ** Names of workspaces, clusters, buckets and objects *)

Section names.
Import validators.

Lemma name_char_LF : name_char LF = false.
Proof. reflexivity. Qed.

Lemma name_char_bucket_char (c : ascii) : name_char c = true → bucket_char c = true.
Proof.
  unfold name_char, bucket_char. intros H.
  repeat (apply orb_true_iff in H as [H|H]); rewrite H;
    repeat rewrite ?orb_true_r, ?orb_true_l; reflexivity.
Qed.

Lemma name_char_not_period : name_char "." = false.
Proof. reflexivity. Qed.

(** What the pattern accepts, whatever the string: a non-empty run of class
    characters, alone or followed by one final newline. *)
Lemma re_match_class_plus_true (cls : ascii → bool) (s : string) :
  cls LF = false →
  re_match_class_plus cls s = true ↔
    ∃ body, body ≠ "" ∧ (∀ a c b, body = a +:+ String c b → cls c = true)
            ∧ (s = body ∨ s = body +:+ String LF "").
Proof.
  intros HLF. unfold re_match_class_plus.
  destruct (span_class_spec cls s) as (body & rest & -> & Hs & Hall & Hrest).
  split.
  - intros H. exists body. destruct body as [|d body]; [discriminate H|].
    split; [discriminate|]. split; [exact Hall|].
    destruct rest as [|c [|e r]]; try discriminate H.
    + left. rewrite Hs. apply append_nil_r.
    + right. apply Ascii.eqb_eq in H. subst c. exact Hs.
  - intros (body' & Hne & Hall' & Hcase).
    assert (∀ x y x' y' : string,
              x +:+ y = x' +:+ y' →
              (∀ a c b, x = a +:+ String c b → cls c = true) →
              (∀ a c b, x' = a +:+ String c b → cls c = true) →
              (y = "" ∨ ∃ c r, y = String c r ∧ cls c = false) →
              (y' = "" ∨ ∃ c r, y' = String c r ∧ cls c = false) →
              x = x' ∧ y = y') as Huniq.
    { clear. intros x. induction x as [|c x IH]; intros y x' y' E Hx Hx' Hy Hy'.
      - destruct x' as [|c' x']; [split; [reflexivity|exact E]|].
        rewrite str_app_nil, str_app_cons in E. exfalso.
        destruct Hy as [->|(c0 & r & -> & Hc0)]; [discriminate E|].
        injection E as -> _.
        rewrite (Hx' "" c' x' eq_refl) in Hc0. discriminate.
      - destruct x' as [|c' x'].
        + rewrite str_app_nil, str_app_cons in E. exfalso.
          destruct Hy' as [->|(c0 & r & -> & Hc0)]; [discriminate E|].
          injection E as <- _.
          rewrite (Hx "" c x eq_refl) in Hc0. discriminate.
        + rewrite !str_app_cons in E. injection E as <- E.
          destruct (IH y x' y' E) as [-> ->]; try assumption.
          * intros a c0 b ->. apply (Hx (String c a) c0 b). reflexivity.
          * intros a c0 b ->. apply (Hx' (String c a) c0 b). reflexivity.
          * split; reflexivity. }
    destruct Hcase as [Hc|Hc].
    + destruct (Huniq body rest body' "") as [-> ->];
        [rewrite <- Hs, Hc, append_nil_r; reflexivity|exact Hall|exact Hall'
        |exact Hrest|left; reflexivity|].
      destruct body'; [congruence|reflexivity].
    + destruct (Huniq body rest body' (String LF "")) as [-> ->];
        [rewrite <- Hs, Hc; reflexivity|exact Hall|exact Hall'
        |exact Hrest|right; eauto|].
      destruct body'; [congruence|]. reflexivity.
Qed.

Lemma char_of_body_or_LF (body name a b : string) (c : ascii) :
  name = body ∨ name = body +:+ String LF "" →
  name = a +:+ String c b →
  (∃ a' b', body = a' +:+ String c b') ∨ c = LF.
Proof.
  intros [->| ->] H; [left; eauto|].
  revert a H. induction body as [|d body IH]; intros a H.
  - rewrite str_app_nil in H. destruct a as [|e a].
    + rewrite str_app_nil in H. injection H as <- _. right. reflexivity.
    + rewrite str_app_cons in H. injection H as _ H.
      destruct a; discriminate H.
  - rewrite str_app_cons in H. destruct a as [|e a].
    + rewrite str_app_nil in H. injection H as <- _.
      left. exists "", body. reflexivity.
    + rewrite str_app_cons in H. injection H as _ H.
      destruct (IH a H) as [(a' & b' & ->)|Hc]; [|right; exact Hc].
      left. exists (String d a'), b'. reflexivity.
Qed.

Lemma workspace_and_cluster_names_aux (name : string) :
  validate_workspace_name name = Ok tt →
  (String.length name ≤ 100)%nat
  ∧ ∃ body, body ≠ ""
      ∧ (∀ a c b, body = a +:+ String c b → name_char c = true)
      ∧ (name = body ∨ name = body +:+ String LF "").
Proof.
  unfold validate_workspace_name.
  destruct (String.eqb name ""); [discriminate|].
  destruct (100 <? String.length name)%nat eqn:E2; [discriminate|].
  destruct (re_match_class_plus name_char name) eqn:E3; [|discriminate].
  intros _. split; [apply Nat.ltb_ge in E2; exact E2|].
  apply (re_match_class_plus_true name_char name name_char_LF). exact E3.
Qed.

(** X1: [validate_workspace_name] and [validate_cluster_name] accept the same
    names: those of at most 100 characters that are a non-empty run of
    letters, digits, underscores and hyphens, alone or followed by one
    final newline. *)
Theorem workspace_and_cluster_names (name : string) :
  let accepted :=
    (String.length name ≤ 100)%nat
    ∧ ∃ body, body ≠ ""
        ∧ (∀ a c b, body = a +:+ String c b → name_char c = true)
        ∧ (name = body ∨ name = body +:+ String LF "") in
  (validate_workspace_name name = Ok tt ↔ accepted)
  ∧ (validate_cluster_name name = Ok tt ↔ accepted).
Proof.
  intros accepted. subst accepted.
  pose proof (re_match_class_plus_true name_char name name_char_LF) as Hre.
  pose proof (Nat.ltb_lt 100 (String.length name)) as Hlen.
  assert (name = "" → ¬ ∃ body, body ≠ ""
            ∧ (∀ a c b, body = a +:+ String c b → name_char c = true)
            ∧ (name = body ∨ name = body +:+ String LF "")) as Hempty.
  { intros -> (body & Hne & _ & [H|H]); [congruence|].
    destruct body; [congruence|discriminate H]. }
  unfold validate_workspace_name, validate_cluster_name.
  destruct (String.eqb_spec name "") as [He|He].
  { split; (split; [discriminate|intros [_ H]; exfalso; exact (Hempty He H)]). }
  destruct (100 <? String.length name)%nat eqn:E2.
  { assert (100 < String.length name)%nat by (apply Hlen; reflexivity).
    split; (split; [discriminate|intros [H' _]; lia]). }
  assert (String.length name ≤ 100)%nat.
  { destruct (le_lt_dec (String.length name) 100) as [Hl|Hl]; [exact Hl|].
    apply Hlen in Hl. congruence. }
  destruct (re_match_class_plus name_char name) eqn:E3; simpl.
  - split; (split; [intros _; split; [assumption|apply Hre; reflexivity]
                   |reflexivity]).
  - split; (split; [discriminate|]); intros [_ H']; apply Hre in H';
      discriminate H'.
Qed.

Lemma workspace_and_cluster_names_witness :
  validate_cluster_name "etl_1" = Ok tt
  ∧ validate_workspace_name ("a b") ≠ Ok tt.
Proof.
  split.
  - reflexivity.
  - intros H.
    destruct (workspace_and_cluster_names "a b") as [[Hw _] _].
    destruct (Hw H) as (_ & body & _ & Hchars & [Hb|Hb]).
    + specialize (Hchars "a" " "%char "b"). rewrite <- Hb in Hchars.
      specialize (Hchars eq_refl). discriminate Hchars.
    + destruct body as [|? [|? [|? [|? body]]]];
        rewrite ?str_app_cons, ?str_app_nil in Hb; discriminate Hb.
Defined.

(** X2: a name that [validate_workspace_name] accepts is accepted by
    [validate_bucket_name], and a name that [validate_bucket_name] accepts
    is accepted by [validate_object_name]. *)
Theorem accepted_names_nest (name : string) :
  (validate_workspace_name name = Ok tt → validate_bucket_name name = Ok tt)
  ∧ (validate_bucket_name name = Ok tt → validate_object_name name = Ok tt).
Proof.
  split.
  - intros H. apply workspace_and_cluster_names_aux in H.
    destruct H as (Hlen & body & Hne & Hall & Hcase).
    assert (∀ a b, name ≠ a +:+ String "." b) as Hnodot.
    { intros a b Hn.
      destruct (char_of_body_or_LF _ _ _ _ _ Hcase Hn) as [(a' & b' & Hb)|Hc];
        [|discriminate Hc].
      pose proof name_char_not_period as Hp.
      rewrite (Hall _ _ _ Hb) in Hp. discriminate Hp. }
    unfold validate_bucket_name, startswith.
    destruct (String.eqb_spec name "") as [He|He].
    { exfalso. subst name. destruct Hcase as [H|H]; [congruence|].
      destruct body; [congruence|discriminate H]. }
    destruct (256 <? String.length name)%nat eqn:E2;
      [apply Nat.ltb_lt in E2; lia|].
    destruct (String.prefix "." name) eqn:E3.
    { apply prefix_spec in E3 as [r Hr]. exfalso. apply (Hnodot "" r).
      exact Hr. }
    destruct (endswith name ".") eqn:E4.
    { apply endswith_spec in E4 as [r Hr]. exfalso. apply (Hnodot r "").
      exact Hr. }
    destruct (str_contains ".." name) eqn:E5.
    { apply str_contains_spec in E5 as (a & b & Hab). exfalso.
      apply (Hnodot a ("." +:+ b)). exact Hab. }
    assert (re_match_class_plus bucket_char name = true) as ->; [|reflexivity].
    apply (re_match_class_plus_true bucket_char name bucket_char_LF).
    exists body. split; [exact Hne|]. split; [|exact Hcase].
    intros a c b Hb. apply name_char_bucket_char, (Hall _ _ _ Hb).
  - unfold validate_bucket_name, validate_object_name.
    destruct (String.eqb name ""); [discriminate|].
    destruct (256 <? String.length name)%nat eqn:E2; [discriminate|].
    intros _. apply Nat.ltb_ge in E2.
    destruct (1024 <? String.length name)%nat eqn:E3; [|reflexivity].
    apply Nat.ltb_lt in E3. lia.
Qed.

Lemma accepted_names_nest_witness :
  validate_bucket_name "team-a_1" = Ok tt
  ∧ validate_object_name "logs.2024" = Ok tt.
Proof.
  destruct (accepted_names_nest "team-a_1") as [H1 _].
  destruct (accepted_names_nest "logs.2024") as [_ H2].
  split; [apply H1; reflexivity|apply H2; reflexivity].
Defined.



End names.

(** ** Lists, tables and truncated strings *)

Section more_formatters.
Import formatters observe.

Lemma str_length_app (a b : string) :
  String.length (a +:+ b) = (String.length a + String.length b)%nat.
Proof.
  induction a as [|c a IH]; [reflexivity|]. rewrite str_app_cons. simpl. lia.
Qed.

Lemma str_take_length (n : nat) (s : string) :
  String.length (str_take n s) = min n (String.length s).
Proof.
  revert s. induction n as [|n IH]; intros [|c s]; simpl; try reflexivity.
  rewrite IH. reflexivity.
Qed.

Lemma str_take_prefix (n : nat) (s : string) : ∃ r, s = str_take n s +:+ r.
Proof.
  revert s. induction n as [|n IH]; intros s.
  - exists s. destruct s; reflexivity.
  - destruct s as [|c s]; [exists ""; reflexivity|].
    destruct (IH s) as [r Hr]. exists r. simpl.
    rewrite str_app_cons, <- Hr. reflexivity.
Qed.

(** X4: [format_list_response] always reports [count] as the number of
    items; [total_count] is present exactly when given; [pagination] is
    present exactly when both [page] and [page_size] are given, and its
    [has_more] compares [page * page_size] with [total_count], or with the
    number of items when [total_count] is absent or zero. *)
Theorem format_list_response_fields (items : list Value)
    (total_count page page_size : option Z) :
  let d := format_list_response items total_count page page_size in
  d !! "items" = Some (VList items)
  ∧ d !! "count" = Some (VInt (Z.of_nat (length items)))
  ∧ d !! "total_count" = VInt <$> total_count
  ∧ (is_Some (d !! "pagination") ↔ is_Some page ∧ is_Some page_size)
  ∧ (∀ pg sz, page = Some pg → page_size = Some sz →
       (∀ t, total_count = Some t → t ≠ 0 →
          lookup2 d "pagination" "has_more" = Some (VBool (pg * sz <? t)))
       ∧ (total_count = None ∨ total_count = Some 0 →
          lookup2 d "pagination" "has_more" =
            Some (VBool (pg * sz <? Z.of_nat (length items))))).
Proof.
  intros d. subst d. unfold format_list_response, lookup2.
  destruct total_count as [t|], page as [pg|], page_size as [sz|]; simpl;
    (split; [reflexivity|]); (split; [reflexivity|]); (split; [reflexivity|]);
    split;
    try (split; [intros _; split; eexists; reflexivity
                |intros _; eexists; reflexivity]);
    try (split; [intros [v Hv]; discriminate Hv|]);
    try (intros [[v Hv] [v' Hv']]; discriminate);
    intros pg' sz' Hp Hs; try discriminate; injection Hp as ->;
      injection Hs as ->; split.
  - intros t' [= ->] Ht. destruct (Z.eqb_spec t' 0); [congruence|reflexivity].
  - intros [H|[= ->]]; [discriminate H|reflexivity].
  - intros t' H. discriminate H.
  - intros _. reflexivity.
Qed.

Lemma format_list_response_fields_witness :
  lookup2 (format_list_response [VInt 1; VInt 2; VInt 3] (Some 0) (Some 1)
             (Some 2)) "pagination" "has_more" = Some (VBool true).
Proof.
  destruct (format_list_response_fields [VInt 1; VInt 2; VInt 3] (Some 0)
              (Some 1) (Some 2)) as (_ & _ & _ & _ & H).
  destruct (H 1 2 eq_refl eq_refl) as [_ H0].
  apply H0. right. reflexivity.
Defined.

(** X5: the rows that [format_table_data] shows are always a leading part
    of the rows given, [preview_rows] is their number and [total_rows] the
    number given.  For a limit that is not negative the first
    [max_preview_rows] rows are shown, and [truncated] holds exactly when
    some row is left out; for a negative limit the last rows are dropped
    and [truncated] always holds. *)
Theorem format_table_data_preview (columns : list string)
    (rows : list (list Value)) (max_preview_rows : Z) :
  let d := format_table_data columns rows max_preview_rows in
  ∃ preview : list (list Value),
    d !! "rows" = Some (VList (VList <$> preview))
    ∧ d !! "preview_rows" = Some (VInt (Z.of_nat (length preview)))
    ∧ d !! "total_rows" = Some (VInt (Z.of_nat (length rows)))
    ∧ d !! "truncated" =
        Some (VBool (bool_decide (max_preview_rows < Z.of_nat (length rows))))
    ∧ preview `prefix_of` rows
    ∧ (0 ≤ max_preview_rows →
         preview = take (Z.to_nat max_preview_rows) rows
         ∧ (max_preview_rows < Z.of_nat (length rows) ↔
              (length preview < length rows)%nat))
    ∧ (max_preview_rows < 0 →
         preview = take (length rows - Z.to_nat (- max_preview_rows)) rows).
Proof.
  intros d. subst d. unfold format_table_data.
  set (lt := max_preview_rows <? Z.of_nat (length rows)).
  exists (if lt then slice_to max_preview_rows rows else rows).
  split; [reflexivity|]. split; [reflexivity|]. split; [reflexivity|].
  split; [|split; [|split]].
  - f_equal. f_equal. subst lt.
    destruct (Z.ltb_spec max_preview_rows (Z.of_nat (length rows)));
      [rewrite bool_decide_eq_true_2 by lia|rewrite bool_decide_eq_false_2 by lia];
      reflexivity.
  - destruct lt; [|reflexivity]. unfold slice_to.
    destruct (max_preview_rows <? 0); apply prefix_take.
  - intros Hmax. subst lt. unfold slice_to.
    destruct (Z.ltb_spec max_preview_rows 0); [lia|].
    destruct (Z.ltb_spec max_preview_rows (Z.of_nat (length rows))).
    + split; [reflexivity|]. rewrite length_take. lia.
    + split; [symmetry; apply take_ge; lia|]. lia.
  - intros Hmax. subst lt. unfold slice_to.
    destruct (Z.ltb_spec max_preview_rows (Z.of_nat (length rows))); [|lia].
    destruct (Z.ltb_spec max_preview_rows 0); [|lia].
    f_equal. lia.
Qed.

Lemma format_table_data_preview_witness :
  format_table_data ["a"] [[VInt 1]; [VInt 2]; [VInt 3]] 2 !! "rows" =
    Some (VList [VList [VInt 1]; VList [VInt 2]]).
Proof.
  destruct (format_table_data_preview ["a"] [[VInt 1]; [VInt 2]; [VInt 3]] 2)
    as (preview & Hrows & _ & _ & _ & _ & H & _).
  destruct H as [-> _]; [lia|]. exact Hrows.
Defined.

(** X6: [truncate_string] returns a text of at most [max_length] characters
    unchanged.  A longer text, when the suffix is no longer than
    [max_length], becomes a leading part of the text followed by the
    suffix, of exactly [max_length] characters; truncating twice is then
    the same as truncating once.  When the suffix is longer than
    [max_length], the result of truncating a longer text is longer than
    [max_length]. *)
Theorem truncate_string_length (text : string) (max_length : Z)
    (suffix : string) :
  let result := truncate_string text max_length suffix in
  (Z.of_nat (String.length text) ≤ max_length → result = text)
  ∧ (max_length < Z.of_nat (String.length text) →
     Z.of_nat (String.length suffix) ≤ max_length →
       Z.of_nat (String.length result) = max_length
       ∧ ∃ kept rest, text = kept +:+ rest ∧ result = kept +:+ suffix)
  ∧ (Z.of_nat (String.length suffix) ≤ max_length →
       truncate_string result max_length suffix = result)
  ∧ (max_length < Z.of_nat (String.length text) →
     max_length < Z.of_nat (String.length suffix) →
       max_length < Z.of_nat (String.length result)).
Proof.
  intros result. subst result. unfold truncate_string.
  assert (max_length < Z.of_nat (String.length text) →
          Z.of_nat (String.length suffix) ≤ max_length →
          Z.of_nat (String.length
            (str_slice_to (max_length - Z.of_nat (String.length suffix)) text
             +:+ suffix)) = max_length) as Hlen.
  { intros H1 H2. rewrite str_length_app. unfold str_slice_to.
    destruct (Z.ltb_spec (max_length - Z.of_nat (String.length suffix)) 0);
      [lia|].
    rewrite str_take_length. lia. }
  split; [|split; [|split]].
  - intros H. destruct (Z.leb_spec (Z.of_nat (String.length text)) max_length);
      [reflexivity|lia].
  - intros H1 H2.
    destruct (Z.leb_spec (Z.of_nat (String.length text)) max_length); [lia|].
    split; [apply Hlen; assumption|].
    unfold str_slice_to.
    destruct (_ <? 0);
      match goal with
      | |- context [str_take ?n text] =>
          destruct (str_take_prefix n text) as [r Hr];
          exists (str_take n text), r; split; [exact Hr|reflexivity]
      end.
  - intros H2.
    destruct (Z.leb_spec (Z.of_nat (String.length text)) max_length) as [H|H].
    + destruct (Z.leb_spec (Z.of_nat (String.length text)) max_length);
        [reflexivity|lia].
    + rewrite (Hlen H H2).
      destruct (Z.leb_spec max_length max_length); [reflexivity|lia].
  - intros H1 H2.
    destruct (Z.leb_spec (Z.of_nat (String.length text)) max_length); [lia|].
    rewrite str_length_app. lia.
Qed.

Lemma truncate_string_length_witness :
  truncate_string "abcdefghij" 5 "..." = "ab..."
  ∧ 2 < Z.of_nat (String.length (truncate_string "abcdefghij" 2 "...")).
Proof.
  destruct (truncate_string_length "abcdefghij" 5 "...") as (_ & H & _).
  destruct (truncate_string_length "abcdefghij" 2 "...") as (_ & _ & _ & H').
  split; [|apply H'; simpl; lia].
  destruct H as [_ (kept & rest & Ht & Hr)]; [simpl; lia|simpl; lia|].
  reflexivity.
Defined.

End more_formatters.

(** ** Sizes and durations *)

Section sizes_and_durations.
Import formatters.





Lemma Qfloor_div (q : Q) (c : positive) :
  Qfloor (q / inject_Z (Z.pos c)) = Qfloor q / Z.pos c.
Proof.
  destruct q as [a b]. unfold Qdiv, Qmult, Qinv, inject_Z. simpl.
  rewrite Z.mul_1_r, Pos2Z.inj_mul. symmetry. apply Z.div_div; lia.
Qed.

Lemma Qfloor_sub (q : Q) (c m : Z) :
  Qfloor (q - inject_Z c * inject_Z m) = Qfloor q - c * m.
Proof.
  destruct q as [a b]. unfold Qminus, Qplus, Qopp, Qmult, inject_Z. simpl.
  rewrite Z.mul_1_r, Pos.mul_1_r.
  replace (a + - (c * m) * Z.pos b) with (a + (- (c * m)) * Z.pos b) by ring.
  rewrite Z.div_add by lia. lia.
Qed.

Lemma Qle_bool_floor (c : Z) (q : Q) :
  Qle_bool (inject_Z c) q = (c <=? Qfloor q).
Proof.
  destruct (Z.leb_spec c (Qfloor q)) as [H|H].
  - apply Qle_bool_iff. apply Qle_trans with (inject_Z (Qfloor q)).
    + rewrite <- Zle_Qle. exact H.
    + apply Qfloor_le.
  - destruct (Qle_bool (inject_Z c) q) eqn:E; [|reflexivity].
    apply Qle_bool_iff in E. apply Qfloor_resp_le in E.
    rewrite Qfloor_Z in E. lia.
Qed.

(** X8: a duration below 60 seconds is printed with one decimal; from 60
    seconds on [format_duration] prints whole units only, two of them:
    minutes and seconds below one hour, hours and minutes below one day,
    days and hours from one day on, each computed from the whole number of
    seconds. *)
Theorem format_duration_units (seconds : Q) :
  let total := Qfloor seconds in
  ((seconds < inject_Z 60)%Q →
     format_duration seconds = format_fixed 1 seconds +:+ "s")
  ∧ (60 ≤ total → total < 3600 →
       format_duration seconds =
         pretty (total / 60) +:+ "m " +:+ pretty (total mod 60) +:+ "s")
  ∧ (3600 ≤ total → total < 86400 →
       format_duration seconds =
         pretty (total / 3600) +:+ "h " +:+ pretty (total / 60 mod 60) +:+ "m")
  ∧ (86400 ≤ total →
       format_duration seconds =
         pretty (total / 86400) +:+ "d " +:+ pretty (total / 3600 mod 24) +:+ "h").
Proof.
  intros total. unfold format_duration.
  rewrite Qle_bool_floor. fold total.
  change (inject_Z 60) with (inject_Z (Z.pos 60)).
  rewrite Qfloor_div, Qfloor_sub. fold total.
  assert (total - 60 * (total / 60) = total mod 60) as ->
    by (rewrite Z.mod_eq by lia; reflexivity).
  assert (total / 60 / 60 = total / 3600) as Hh
    by (rewrite Z.div_div by lia; reflexivity).
  assert (total / 3600 / 24 = total / 86400) as Hd
    by (rewrite Z.div_div by lia; reflexivity).
  split; [|split; [|split]].
  - intros Hs. destruct (Z.leb_spec 60 total) as [H|H]; [|reflexivity].
    exfalso. apply (Qlt_not_le _ _ Hs).
    apply Qle_trans with (inject_Z total); [|apply Qfloor_le].
    rewrite <- Zle_Qle. exact H.
  - intros H1 H2. destruct (Z.leb_spec 60 total) as [H60|H60]; [|lia]. cbn [negb].
    destruct (Z.ltb_spec (total / 60) 60) as [H|H]; [reflexivity|].
    exfalso. assert (total / 60 < 60) by (apply Z.div_lt_upper_bound; lia). lia.
  - intros H1 H2. destruct (Z.leb_spec 60 total) as [H60|H60]; [|lia]. cbn [negb].
    destruct (Z.ltb_spec (total / 60) 60) as [H|H].
    { exfalso. assert (60 ≤ total / 60) by (apply Z.div_le_lower_bound; lia).
      lia. }
    rewrite Hh.
    destruct (Z.ltb_spec (total / 3600) 24) as [H'|H']; [reflexivity|].
    exfalso. assert (total / 3600 < 24) by (apply Z.div_lt_upper_bound; lia).
    lia.
  - intros H1. destruct (Z.leb_spec 60 total) as [H60|H60]; [|lia]. cbn [negb].
    destruct (Z.ltb_spec (total / 60) 60) as [H|H].
    { exfalso. assert (60 ≤ total / 60) by (apply Z.div_le_lower_bound; lia).
      lia. }
    rewrite Hh.
    destruct (Z.ltb_spec (total / 3600) 24) as [H'|H'].
    { exfalso. assert (24 ≤ total / 3600) by (apply Z.div_le_lower_bound; lia).
      lia. }
    rewrite Hd. reflexivity.
Qed.

Lemma format_duration_units_witness :
  format_duration (7384 # 1) = "2h 3m" ∧ format_duration (59 # 2) = "29.5s".
Proof.
  destruct (format_duration_units (7384 # 1)) as (_ & _ & H & _).
  destruct (format_duration_units (59 # 2)) as (H' & _).
  split; [apply H; [vm_compute; discriminate|vm_compute; reflexivity]
        |apply H'; reflexivity].
Defined.

End sizes_and_durations.

(** ** The error dict, retries that recover, the connection test *)

Section client_more.
Import formatters observe oci_client.

(** X9: in verbose mode the [error] entry of the envelope of a taxonomy
    error is the error's own [to_dict]; without verbose mode it is so
    exactly when the error wraps no cause, because [to_dict] always
    includes the cause. *)
Theorem error_entry_is_to_dict (now : string) (a : AIDPError)
    (rid : option string) :
  format_error_response now (ExAIDP a) rid true !! "error" =
    Some (VDict (to_dict a))
  ∧ (format_error_response now (ExAIDP a) rid false !! "error" =
       Some (VDict (to_dict a)) ↔ original_error a = None).
Proof.
  unfold format_error_response, to_dict. simpl.
  destruct (truthy_dict (details a)), (original_error a) as [o|];
    (split; [reflexivity|]); split; try reflexivity; try discriminate;
    intros H; exfalso; injection H as H;
    apply (f_equal (λ m : pydict, m !! "original_error")) in H;
    discriminate H.
Qed.

Lemma error_entry_is_to_dict_witness :
  format_error_response "t" (ExAIDP (init Validation "m" None None)) None false
    !! "error"
  = Some (VDict (to_dict (init Validation "m" None None))).
Proof.
  apply (proj2 (error_entry_is_to_dict "t" (init Validation "m" None None) None)).
  reflexivity.
Defined.



(** X11: whatever the SDK does, one [call_api] invokes the function one,
    two or three times, pausing 2 seconds between invocations and never
    after the last; it touches neither the cached clients nor the clock;
    and a returned value is what the last invocation returned. *)
Theorem call_api_traces (env : Env) (c : ApiCall) (w w1 : World)
    (r : Result Value) :
  call_api env c w = (r, w1) →
  oci w1 = oci w ∧ clock_reads w1 = clock_reads w
  ∧ ∃ before_last,
      trace w1 = before_last ++ [EvApi c]
      ∧ (before_last = trace w
         ∨ before_last = trace w ++ [EvApi c; EvSleep 2]
         ∨ before_last = trace w ++ [EvApi c; EvSleep 2; EvApi c; EvSleep 2])
      ∧ (∀ v, r = Ok v → sdk_call env c before_last = inr v).
Proof.
  assert (∀ w0 r0 w0', call_api_body env c w0 = (r0, w0') →
            w0' = record_event (EvApi c) w0
            ∧ ∀ v, r0 = Ok v → sdk_call env c (trace w0) = inr v) as Hbody.
  { intros w0 r0 w0'. unfold call_api_body.
    destruct (sdk_call env c (trace w0)) as [e|v0]; intros [= <- <-];
      (split; [reflexivity|]); intros v [= ->]; reflexivity. }
  unfold call_api, tenacity.retry. simpl Nat.sub. cbn [tenacity.attempts].
  destruct (call_api_body env c w) as [r1 x1] eqn:E1.
  destruct (Hbody _ _ _ E1) as [-> Hv1].
  assert (∀ r', r1 = r' → (r', record_event (EvApi c) w) = (r, w1) →
            oci w1 = oci w ∧ clock_reads w1 = clock_reads w
            ∧ ∃ before_last,
                trace w1 = before_last ++ [EvApi c]
                ∧ (before_last = trace w
                   ∨ before_last = trace w ++ [EvApi c; EvSleep 2]
                   ∨ before_last =
                       trace w ++ [EvApi c; EvSleep 2; EvApi c; EvSleep 2])
                ∧ (∀ v, r = Ok v → sdk_call env c before_last = inr v)) as Hone.
  { intros r' <- [= <- <-]. split; [reflexivity|]. split; [reflexivity|].
    exists (trace w). split; [reflexivity|]. split; [left; reflexivity|exact Hv1]. }
  destruct r1 as [v1|e1]; [apply Hone; reflexivity|].
  destruct (call_api_retry_if e1); cbn [negb]; [|apply Hone; reflexivity].
  clear Hone Hv1.
  set (w2 := record_event (EvSleep (call_api_wait 1)) (record_event (EvApi c) w)).
  destruct (call_api_body env c w2) as [r2 x2] eqn:E2.
  destruct (Hbody _ _ _ E2) as [-> Hv2].
  assert (trace w2 = trace w ++ [EvApi c; EvSleep 2]) as Ht2
    by (simpl; rewrite <- app_assoc; reflexivity).
  assert (∀ r', r2 = r' → (r', record_event (EvApi c) w2) = (r, w1) →
            oci w1 = oci w ∧ clock_reads w1 = clock_reads w
            ∧ ∃ before_last,
                trace w1 = before_last ++ [EvApi c]
                ∧ (before_last = trace w
                   ∨ before_last = trace w ++ [EvApi c; EvSleep 2]
                   ∨ before_last =
                       trace w ++ [EvApi c; EvSleep 2; EvApi c; EvSleep 2])
                ∧ (∀ v, r = Ok v → sdk_call env c before_last = inr v)) as Htwo.
  { intros r' <- [= <- <-]. split; [reflexivity|]. split; [reflexivity|].
    exists (trace w2). split; [reflexivity|].
    split; [right; left; exact Ht2|exact Hv2]. }
  destruct r2 as [v2|e2]; [apply Htwo; reflexivity|].
  destruct (call_api_retry_if e2); cbn [negb]; [|apply Htwo; reflexivity].
  clear Htwo Hv2.
  set (w3 := record_event (EvSleep (call_api_wait 2)) (record_event (EvApi c) w2)).
  destruct (call_api_body env c w3) as [r3 x3] eqn:E3.
  destruct (Hbody _ _ _ E3) as [-> Hv3].
  assert (trace w3 = trace w ++ [EvApi c; EvSleep 2; EvApi c; EvSleep 2]) as Ht3
    by (simpl; rewrite <- !app_assoc; reflexivity).
  assert ((r3, record_event (EvApi c) w3) = (r, w1) →
          oci w1 = oci w ∧ clock_reads w1 = clock_reads w
          ∧ ∃ before_last,
              trace w1 = before_last ++ [EvApi c]
              ∧ (before_last = trace w
                 ∨ before_last = trace w ++ [EvApi c; EvSleep 2]
                 ∨ before_last =
                     trace w ++ [EvApi c; EvSleep 2; EvApi c; EvSleep 2])
              ∧ (∀ v, r = Ok v → sdk_call env c before_last = inr v)) as Hthree.
  { intros [= <- <-]. split; [reflexivity|]. split; [reflexivity|].
    exists (trace w3). split; [reflexivity|].
    split; [right; right; exact Ht3|exact Hv3]. }
  destruct r3 as [v3|e3]; [exact Hthree|].
  destruct (call_api_retry_if e3); exact Hthree.
Qed.

Lemma call_api_traces_witness :
  oci (snd (call_api samples.env_timeout samples.some_call samples.w0)) =
    oci samples.w0.
Proof.
  destruct (call_api_traces samples.env_timeout samples.some_call samples.w0
              (snd (call_api samples.env_timeout samples.some_call samples.w0))
              (fst (call_api samples.env_timeout samples.some_call samples.w0)))
    as [H _]; [|exact H].
  destruct (call_api samples.env_timeout samples.some_call samples.w0);
    reflexivity.
Defined.



Lemma identity_probe_connected (env : Env) (config : pydict)
    (tenancy_name : Value → Result Value) (w w1 : World) (entry : pydict) :
  identity_probe env config tenancy_name w = (Ok entry, w1) →
  entry !! "status" = Some (VStr "connected").
Proof.
  unfold identity_probe, mbind, M_bind, dict_getitem, lift.
  destruct (identity env w) as [[h|e] w2]; [|discriminate].
  destruct (config !! "tenancy") as [tid|]; [|discriminate]. simpl.
  destruct (call_api env _ w2) as [[t|e] w3]; [|discriminate].
  destruct (tenancy_name t) as [n|e]; [|discriminate].
  intros [= <- <-]. reflexivity.
Qed.

Lemma storage_probe_connected (env : Env) (w w1 : World) (entry : pydict) :
  storage_probe env w = (Ok entry, w1) →
  entry !! "status" = Some (VStr "connected").
Proof.
  unfold storage_probe, mbind, M_bind.
  destruct (object_storage env w) as [[h|e] w2]; [|discriminate]. simpl.
  destruct (call_api env _ w2) as [[t|e] w3]; [|discriminate].
  intros [= <- <-]. reflexivity.
Qed.

(** X12: [test_connection] never raises.  Its result carries the region,
    compartment and namespace of the settings and one entry for each of
    the two services: "connected" when the probe of that service returned,
    otherwise "failed" with the string form of the exception.  The storage
    probe runs in the world that the identity probe left, whether that one
    failed or not.  With a configuration that has no "tenancy" key the
    identity probe fails without invoking the SDK. *)
Theorem test_connection_reports (env : Env) (config : pydict)
    (tenancy_name : Value → Result Value) (w : World) :
  let first := identity_probe env config tenancy_name w in
  let second := storage_probe env (snd first) in
  ∃ d services,
    test_connection env config tenancy_name w = (Ok d, snd second)
    ∧ d !! "region" = Some (VStr (region (settings (oci w))))
    ∧ d !! "compartment_id" = Some (VStr (compartment_ocid (settings (oci w))))
    ∧ d !! "namespace" = Some (VStr (namespace (settings (oci w))))
    ∧ d !! "services" = Some (VDict services)
    ∧ services !! "identity" = Some (VDict (service_entry (fst first)))
    ∧ services !! "object_storage" = Some (VDict (service_entry (fst second)))
    ∧ (∀ outcome, outcome ∈ [fst first; fst second] →
         match outcome with
         | Ok _ => service_entry outcome !! "status" = Some (VStr "connected")
         | Raise e =>
             service_entry outcome !! "status" = Some (VStr "failed")
             ∧ service_entry outcome !! "error" = Some (VStr (exc_str e))
         end)
    ∧ (config !! "tenancy" = None →
         (∃ e, fst first = Raise e)
         ∧ api_calls (trace (snd first)) = api_calls (trace w)).
Proof.
  intros first second.
  exists {[ "region" := VStr (region (settings (oci w)));
            "compartment_id" := VStr (compartment_ocid (settings (oci w)));
            "namespace" := VStr (namespace (settings (oci w)));
            "services" :=
              VDict {[ "identity" := VDict (service_entry (fst first));
                       "object_storage" := VDict (service_entry (fst second)) ]} ]},
         {[ "identity" := VDict (service_entry (fst first));
            "object_storage" := VDict (service_entry (fst second)) ]}.
  split.
  - unfold test_connection, mbind, M_bind, try, get_region,
      get_compartment_id, get_namespace, mret, M_ret.
    subst second. fold first. destruct first as [r1 w1]. cbn [snd fst].
    destruct (storage_probe env w1) as [r2 w2]. reflexivity.
  - split; [reflexivity|]. split; [reflexivity|]. split; [reflexivity|].
    split; [reflexivity|]. split; [reflexivity|]. split; [reflexivity|].
    split.
    + intros outcome Hin.
      apply elem_of_cons in Hin as [->|Hin];
        [|apply elem_of_cons in Hin as [->|Hin]; [|inversion Hin]].
      * destruct (fst first) as [entry|e] eqn:E; [|split; reflexivity].
        eapply (identity_probe_connected env config tenancy_name w (snd first)).
        subst first. destruct (identity_probe env config tenancy_name w).
        simpl in *. congruence.
      * destruct (fst second) as [entry|e] eqn:E; [|split; reflexivity].
        eapply (storage_probe_connected env (snd first) (snd second)).
        subst second. destruct (storage_probe env (snd first)).
        simpl in *. congruence.
    + intros Hno. subst first.
      unfold identity_probe, mbind, M_bind, dict_getitem, identity, lazy_client.
      destruct (get_client Identity (oci w)) as [h|].
      * rewrite Hno. simpl. split; [eauto|reflexivity].
      * destruct (sdk_new env Identity (trace w)) as [exc|].
        -- simpl. split; [eauto|]. rewrite api_calls_app. simpl.
           apply app_nil_r.
        -- rewrite Hno. simpl. split; [eauto|]. rewrite api_calls_app. simpl.
           apply app_nil_r.
Qed.

Lemma test_connection_reports_witness :
  ∃ e, fst (identity_probe samples.env_ok ∅ (λ v, Ok v) samples.w0) = Raise e.
Proof.
  destruct (test_connection_reports samples.env_ok ∅ (λ v, Ok v) samples.w0)
    as (d & services & _ & _ & _ & _ & _ & _ & _ & _ & H).
  destruct H as [He _]; [reflexivity|exact He].
Defined.

End client_more.

(** ** Deleting a bucket *)

Section bucket_deletion.
Import observe oci_client storage_module.

(** An event that is not an invocation of [delete_bucket]. *)
Lemma appends_only_weaken {A} (P Q : Event → Prop) (m : M A) :
  (∀ ev, P ev → Q ev) → appends_only P m → appends_only Q m.
Proof.
  intros HPQ Hm w r w1 E. destruct (Hm _ _ _ E) as (added & Ht & HP).
  exists added. split; [exact Ht|]. eapply Forall_impl; eassumption.
Qed.

Lemma delete_objects_calls_only (env : Env) (bucket_name : Value)
    (names : list Value) :
  appends_only (calls_only "delete_object") (delete_objects env bucket_name names).
Proof.
  induction names as [|n names IH]; cbn [delete_objects].
  - apply appends_only_ret.
  - apply appends_only_bind;
      [apply appends_only_lazy_client; intros; exact I|intros h].
    apply appends_only_bind; [apply appends_only_pure; reflexivity|intros ns].
    apply appends_only_bind;
      [apply appends_only_call_api; [reflexivity|intros; exact I]|intros _].
    exact IH.
Qed.

Lemma purge_objects_never_deletes_bucket (env : Env) (listed : Value → list Value)
    (bucket_name : Value) :
  appends_only (λ ev, ¬ calls_only "delete_bucket" ev ∨ ∀ c, ev ≠ EvApi c)
    (purge_objects env listed bucket_name).
Proof.
  unfold purge_objects.
  apply appends_only_bind;
    [apply appends_only_lazy_client; intros; right; discriminate|intros h].
  apply appends_only_bind; [apply appends_only_pure; reflexivity|intros ns].
  apply appends_only_bind.
  - apply appends_only_call_api; [left; discriminate|intros; right; discriminate].
  - intros resp. eapply appends_only_weaken; [|apply delete_objects_calls_only].
    intros [s h'|c|d|m n] Hev; try (right; discriminate).
    left. simpl in *. rewrite Hev. discriminate.
Qed.

Lemma no_delete_bucket_names (added : list Event) :
  Forall (λ ev, ¬ calls_only "delete_bucket" ev ∨ ∀ c, ev ≠ EvApi c) added →
  "delete_bucket" ∉ api_names added.
Proof.
  induction 1 as [|ev added Hev _ IH]; simpl; [apply not_elem_of_nil|].
  destruct ev as [s h|c|d|m n]; try exact IH.
  apply not_elem_of_cons. split; [|exact IH].
  destruct Hev as [Hev|Hev]; [|exfalso; apply (Hev c); reflexivity].
  simpl in Hev. congruence.
Qed.

(** With an SDK and constructors that never fail. *)
Section never_failing.
Context (env : Env).
Hypothesis sdk_ok : ∀ c tr, ∃ v, sdk_call env c tr = inr v.
Hypothesis new_ok : ∀ s tr, sdk_new env s tr = None.

Lemma lazy_client_ok (s : Service) (w : World) :
  ∃ h w', lazy_client env s w = (Ok h, w')
          ∧ api_calls (trace w') = api_calls (trace w)
          ∧ settings (oci w') = settings (oci w).
Proof.
  unfold lazy_client. destruct (get_client s (oci w)) as [h|]; [eauto|].
  rewrite new_ok. eexists _, _. split; [reflexivity|]. split.
  - simpl. rewrite api_calls_app. apply app_nil_r.
  - destruct s; reflexivity.
Qed.

Lemma call_api_ok (c : ApiCall) (w : World) :
  ∃ v, call_api env c w = (Ok v, record_event (EvApi c) w)
       ∧ sdk_call env c (trace w) = inr v.
Proof.
  destruct (sdk_ok c (trace w)) as [v Hv]. exists v. split; [|exact Hv].
  unfold call_api, tenacity.retry. apply attempts_ok, call_api_body_ok, Hv.
Qed.

Lemma delete_objects_ok (bucket_name : Value) (names : list Value) (w : World) :
  ∃ w', delete_objects env bucket_name names w = (Ok tt, w')
        ∧ settings (oci w') = settings (oci w)
        ∧ ∃ calls, api_calls (trace w') = api_calls (trace w) ++ calls
             ∧ func_name ∘ api_func <$> calls
                 = replicate (length names) "delete_object"
             ∧ omap (λ c, kwargs c !! "object_name") calls = names.
Proof.
  revert w. induction names as [|n names IH]; intros w; cbn [delete_objects].
  - exists w. split; [reflexivity|]. split; [reflexivity|]. exists [].
    split; [symmetry; apply app_nil_r|]. split; reflexivity.
  - unfold mbind, M_bind, object_storage.
    destruct (lazy_client_ok ObjectStorage w) as (h & w1 & -> & Hc1 & Hs1).
    unfold get_namespace at 1. cbn beta iota.
    match goal with
    | |- context [call_api env ?c w1] =>
        destruct (call_api_ok c w1) as (v & -> & _); set (call := c)
    end.
    destruct (IH (record_event (EvApi call) w1)) as (w' & -> & Hs & calls & Hc & Hn & Ho).
    exists w'. split; [reflexivity|]. split; [rewrite Hs; exact Hs1|].
    exists (call :: calls). split.
    + rewrite Hc. simpl. rewrite api_calls_app, Hc1. simpl.
      rewrite <- app_assoc. reflexivity.
    + split; [rewrite fmap_cons, Hn; reflexivity|].
      change (omap (λ c, kwargs c !! "object_name") (call :: calls))
        with (n :: omap (λ c, kwargs c !! "object_name") calls).
      rewrite Ho. reflexivity.
Qed.

End never_failing.

(** X13: without [force], [delete_bucket] invokes no SDK function other
    than [delete_bucket].  With [force], an exception raised while listing
    or deleting the objects is passed on, and the bucket deletion is not
    attempted.  With [force] and an SDK that never fails, the calls are, in
    order: one [list_objects], one [delete_object] for each listed object
    in the order of the listing, and one [delete_bucket]. *)
Theorem delete_bucket_steps (env : Env) (listed : Value → list Value)
    (bucket_name : Value) (w : World) :
  appends_only (calls_only "delete_bucket")
    (delete_bucket env listed bucket_name false)
  ∧ (∀ x w1, purge_objects env listed bucket_name w = (Raise x, w1) →
       delete_bucket env listed bucket_name true w = (Raise x, w1)
       ∧ ∃ added, trace w1 = trace w ++ added
                  ∧ "delete_bucket" ∉ api_names added)
  ∧ ((∀ c tr, ∃ v, sdk_call env c tr = inr v) →
     (∀ s tr, sdk_new env s tr = None) →
       ∃ r w' listing first_call tr calls,
         delete_bucket env listed bucket_name true w = (Ok r, w')
         ∧ api_calls (trace w') = api_calls (trace w) ++ first_call :: calls
         ∧ sdk_call env first_call tr = inr listing
         ∧ func_name (api_func first_call) = "list_objects"
         ∧ func_name ∘ api_func <$> calls =
             replicate (length (listed listing)) "delete_object"
             ++ ["delete_bucket"]
         ∧ omap (λ c, kwargs c !! "object_name") calls = listed listing
         ∧ lookup2 r "data" "status" = Some (VStr "DELETED")).
Proof.
  split; [|split].
  - unfold delete_bucket.
    apply appends_only_bind; [apply appends_only_ret|intros _].
    apply appends_only_bind;
      [apply appends_only_lazy_client; intros; exact I|intros h].
    apply appends_only_bind; [apply appends_only_pure; reflexivity|intros ns].
    apply appends_only_bind;
      [apply appends_only_call_api; [reflexivity|intros; exact I]|intros _].
    apply success_appends_nothing.
  - intros x w1 H. split.
    + unfold delete_bucket, mbind, M_bind. rewrite H. reflexivity.
    + destruct (purge_objects_never_deletes_bucket env listed bucket_name _ _ _ H)
        as (added & Ht & HP).
      exists added. split; [exact Ht|]. apply no_delete_bucket_names, HP.
  - intros sdk_ok new_ok.
    unfold delete_bucket, purge_objects, mbind, M_bind, object_storage.
    destruct (lazy_client_ok env new_ok ObjectStorage w) as (h & w1 & -> & Hc1 & Hs1).
    unfold get_namespace at 1. cbn beta iota.
    match goal with
    | |- context [call_api env ?c w1] =>
        destruct (call_api_ok env sdk_ok c w1) as (listing & -> & Hlist);
        set (first_call := c) in *
    end.
    destruct (delete_objects_ok env sdk_ok new_ok bucket_name (listed listing)
                (record_event (EvApi first_call) w1))
      as (w2 & -> & Hs2 & calls & Hc2 & Hn2 & Ho2).
    destruct (lazy_client_ok env new_ok ObjectStorage w2) as (h' & w3 & -> & Hc3 & Hs3).
    unfold get_namespace at 1. cbn beta iota.
    match goal with
    | |- context [call_api env ?c w3] =>
        destruct (call_api_ok env sdk_ok c w3) as (v3 & -> & _);
        set (last_call := c) in *
    end.
    eexists _, _, listing, first_call, (trace w1), (calls ++ [last_call]).
    split; [reflexivity|].
    split.
    { simpl. rewrite api_calls_app, Hc3, Hc2. simpl.
      rewrite api_calls_app, Hc1. simpl. rewrite <- !app_assoc. reflexivity. }
    split; [exact Hlist|]. split; [reflexivity|].
    split; [rewrite fmap_app, Hn2; reflexivity|].
    split; [|reflexivity].
    rewrite omap_app, Ho2. apply app_nil_r.
Qed.

Lemma delete_bucket_steps_witness :
  ∃ r w', delete_bucket samples.env_ok (λ _, [VStr "a"; VStr "b"])
            (VStr "bkt") true samples.w0 = (Ok r, w')
          ∧ api_names (trace w') =
              ["list_objects"; "delete_object"; "delete_object"; "delete_bucket"].
Proof.
  destruct (delete_bucket_steps samples.env_ok (λ _, [VStr "a"; VStr "b"])
              (VStr "bkt") samples.w0) as (_ & _ & H).
  destruct H as (r & w' & listing & c0 & tr & calls & Hrun & _);
    [intros c tr; exists VNone; reflexivity|intros s tr; reflexivity|].
  exists r, w'. split; [exact Hrun|].
  apply (f_equal snd) in Hrun. simpl in Hrun. subst w'. reflexivity.
Defined.

End bucket_deletion.

(** ** Dispatch inside the storage module and in the server *)

Section dispatch_more.
Import observe validators storage_module server.

Lemma validate_present (arguments : pydict) (fields : list string) :
  Forall (λ f, ∃ v, arguments !! f = Some v ∧ v ≠ VNone) fields →
  validate_required_fields arguments fields = Ok tt.
Proof.
  intros H. unfold validate_required_fields.
  replace (List.filter (field_missing arguments) fields) with (@nil string);
    [reflexivity|].
  symmetry. induction H as [|f fields (v & Hv & Hn) _ IH]; [reflexivity|].
  simpl. unfold field_missing at 1. rewrite Hv.
  destruct v; try congruence; exact IH.
Qed.

(** X14: the branches [get_bucket_details], [delete_object], [copy_object]
    and [move_object] of [storage.handle_tool_call] check their required
    fields first: when the check raises, the branch raises the same error
    and the world is unchanged (no client is built, no SDK function is
    invoked); when every required field is present and not null, the
    branch runs the implementation on the values of those fields. *)
Theorem storage_branches_validate_first (env : Env) (arguments : pydict)
    (w : World) :
  (∀ name required x,
     (name, required) ∈
       [ ("get_bucket_details", ["bucket_name"]);
         ("delete_object", ["bucket_name"; "object_name"]);
         ("copy_object",
          ["source_bucket"; "source_object"; "dest_bucket"; "dest_object"]);
         ("move_object",
          ["source_bucket"; "source_object"; "dest_bucket"; "dest_object"]) ] →
     validate_required_fields arguments required = Raise x →
     handle_tool_call env name arguments w = (Raise x, w))
  ∧ (∀ b, arguments !! "bucket_name" = Some b → b ≠ VNone →
       handle_tool_call env "get_bucket_details" arguments w =
         get_bucket_details env b w
       ∧ ∀ o, arguments !! "object_name" = Some o → o ≠ VNone →
           handle_tool_call env "delete_object" arguments w =
             delete_object env b o w)
  ∧ (∀ sb so db dobj,
       arguments !! "source_bucket" = Some sb → sb ≠ VNone →
       arguments !! "source_object" = Some so → so ≠ VNone →
       arguments !! "dest_bucket" = Some db → db ≠ VNone →
       arguments !! "dest_object" = Some dobj → dobj ≠ VNone →
       handle_tool_call env "copy_object" arguments w =
         copy_object env sb so db dobj w
       ∧ handle_tool_call env "move_object" arguments w =
           move_object env sb so db dobj w).
Proof.
  split; [|split].
  - intros name required x Hin Hv.
    repeat (apply elem_of_cons in Hin as [[= -> ->]|Hin]);
      [..|inversion Hin];
      unfold handle_tool_call; cbn [String.eqb Ascii.eqb Bool.eqb];
      unfold mbind, M_bind, lift; rewrite Hv; reflexivity.
  - intros b Hb Hbn. split.
    + unfold handle_tool_call. cbn [String.eqb Ascii.eqb Bool.eqb].
      unfold mbind, M_bind, lift, getitem.
      rewrite (validate_present arguments ["bucket_name"]) by
        (repeat constructor; eauto).
      rewrite Hb. reflexivity.
    + intros o Ho Hon.
      unfold handle_tool_call. cbn [String.eqb Ascii.eqb Bool.eqb].
      unfold mbind, M_bind, lift, getitem.
      rewrite (validate_present arguments ["bucket_name"; "object_name"]) by
        (repeat constructor; eauto).
      rewrite Hb, Ho. reflexivity.
  - intros sb so db dobj H1 N1 H2 N2 H3 N3 H4 N4.
    assert (validate_required_fields arguments
              ["source_bucket"; "source_object"; "dest_bucket"; "dest_object"]
            = Ok tt) as Hv by (apply validate_present; repeat constructor; eauto).
    split; unfold handle_tool_call; cbn [String.eqb Ascii.eqb Bool.eqb];
      unfold mbind, M_bind, lift, getitem; rewrite Hv, H1, H2, H3, H4;
      reflexivity.
Qed.

Lemma storage_branches_validate_first_witness :
  handle_tool_call samples.env_ok "delete_object"
    {[ "bucket_name" := VStr "b" ]} samples.w0 =
  (raise_error Validation "Missing required fields"
     (Some {[ "missing_fields" := VList [VStr "object_name"] ]}) None,
   samples.w0).
Proof.
  destruct (storage_branches_validate_first samples.env_ok
              {[ "bucket_name" := VStr "b" ]} samples.w0) as [H _].
  apply (H "delete_object" ["bucket_name"; "object_name"]);
    [right; left|reflexivity].
Defined.

(** X15: [handle_call_tool] never raises: it always returns an envelope.
    When the routed handler returns, the envelope is the handler's result,
    unchanged; when routing or the handler raises, whatever the exception,
    the envelope has [success] false, an [error] entry, no [data], and the
    request id of the invocation.  Absent arguments are treated as an
    empty dict. *)
Theorem handle_call_tool_always_answers (env : Env) (name : string)
    (arguments : option pydict) (w : World) :
  (∃ envelope w',
     handle_call_tool env name arguments w = (Ok envelope, w')
     ∧ match fst (dispatch env name (default ∅ arguments) (started w)) with
       | Ok result => envelope = result
       | Raise _ =>
           envelope !! "success" = Some (VBool false)
           ∧ is_Some (envelope !! "error")
           ∧ envelope !! "data" = None
           ∧ lookup2 envelope "metadata" "request_id" =
               Some (VStr (request_id_of (time_time env (clock_reads w))))
       end)
  ∧ handle_call_tool env name None w = handle_call_tool env name (Some ∅) w.
Proof.
  split; [|reflexivity].
  destruct (dispatch env name (default ∅ arguments) (started w))
    as [[result|[a|n]] w2] eqn:E; cbn [fst].
  - eexists result, _. split; [|reflexivity].
    unfold handle_call_tool, mbind, M_bind, read_time, try.
    fold (started w). rewrite E. reflexivity.
  - rewrite (handle_call_tool_aidp _ _ _ _ _ _ E). eexists _, _.
    split; [reflexivity|].
    match goal with
    | |- context [formatters.format_error_response ?now ?e ?rid ?tb] =>
        destruct (error_envelope_top now e rid tb) as (Hs & He & Hd);
        destruct (error_metadata now e rid tb) as (_ & Hrid & _)
    end.
    split; [exact Hs|]. split; [exact He|]. split; [exact Hd|].
    rewrite Hrid. reflexivity.
  - destruct (handle_call_tool_native _ _ _ _ _ _ E)
      as (envelope & Hrun & Hs & Hd & Ht & _ & Hrid).
    exists envelope. eexists. split; [exact Hrun|].
    split; [exact Hs|]. split; [|split; [exact Hd|exact Hrid]].
    unfold lookup2 in Ht. destruct (envelope !! "error"); [eauto|discriminate].
Qed.

Lemma forall_names (P : string → Prop) (names : list string) :
  Forall P names → ∀ name, name ∈ names → P name.
Proof. intros H name Hin. rewrite Forall_forall in H. exact (H name Hin). Qed.

(** X16: the tools that the storage module lists are exactly the names that
    have a branch in its [handle_tool_call], and the server routes every
    one of them to the storage module. *)
Theorem storage_tools_are_routed (name : string) :
  (name ∈ tool_names ↔
     name ∈ ["get_bucket_details"; "delete_object"; "copy_object"; "move_object"]
            ++ other_tools)
  ∧ (name ∈ tool_names → route name = Some storage).
Proof.
  split.
  - split; intros Hin.
    + revert name Hin. apply forall_names. unfold tool_names.
      repeat (constructor; [set_solver|]). constructor.
    + revert name Hin. apply forall_names.
      repeat (constructor; [unfold tool_names; set_solver|]). constructor.
  - revert name. apply forall_names. unfold tool_names.
    repeat (constructor; [reflexivity|]). constructor.
Qed.

Lemma storage_tools_are_routed_witness : route "restore_object_version" = Some storage.
Proof.
  destruct (storage_tools_are_routed "restore_object_version") as [_ H].
  apply H. unfold tool_names. set_solver.
Defined.

(** X17: no tool that the compute module lists reaches it: for each of
    them the server finds no route and answers "Unknown tool" as an
    unexpected error, without entering any handler. *)
Theorem compute_tools_are_unreachable (env : Env) (name : string)
    (arguments : option pydict) (w : World) :
  name ∈ compute_module.tool_names →
  route name = None
  ∧ ∃ envelope w',
      handle_call_tool env name arguments w = (Ok envelope, w')
      ∧ envelope !! "success" = Some (VBool false)
      ∧ lookup2 envelope "error" "type" = Some (VStr "UnexpectedError")
      ∧ lookup2 envelope "error" "message" = Some (VStr ("Unknown tool: " +:+ name))
      ∧ handlers (trace w') = handlers (trace w).
Proof.
  intros Hin.
  assert (route name = None) as Hr.
  { revert name Hin. apply forall_names. unfold compute_module.tool_names.
    repeat (constructor; [reflexivity|]). constructor. }
  split; [exact Hr|].
  destruct (handle_call_tool_native env name arguments w (started w)
              (OtherException "ValueError" ("Unknown tool: " +:+ name)))
    as (envelope & Hrun & Hs & _ & Ht & Hm & _).
  { unfold dispatch. rewrite Hr. reflexivity. }
  eexists envelope, _. split; [exact Hrun|]. split; [exact Hs|].
  split; [exact Ht|]. split; [exact Hm|reflexivity].
Qed.

Lemma compute_tools_are_unreachable_witness : route "list_clusters" = None.
Proof.
  destruct (compute_tools_are_unreachable samples.env_ok "list_clusters" None
              samples.w0) as [H _]; [|exact H].
  unfold compute_module.tool_names. set_solver.
Defined.


(** X18: of the tools that the instance module lists, all but
    [list_workspace_users] are routed to it, and that one is routed
    nowhere; of the tools that the catalog module lists, all but
    [get_object_metadata] are routed to it, and that one is routed to the
    storage module; every tool that the notebooks module lists is routed
    to it. *)
Theorem listed_tools_routing (name : string) :
  (name ∈ instance_module.tool_names → name ≠ "list_workspace_users" →
     route name = Some instance)
  ∧ route "list_workspace_users" = None
  ∧ (name ∈ catalog_module.tool_names → name ≠ "get_object_metadata" →
       route name = Some catalog)
  ∧ route "get_object_metadata" = Some storage
  ∧ (name ∈ notebooks_module.tool_names → route name = Some notebooks).
Proof.
  split; [|split; [reflexivity|split; [|split; [reflexivity|]]]].
  - revert name.
    apply (forall_names (λ n, n ≠ "list_workspace_users" → route n = Some instance)).
    unfold instance_module.tool_names.
    repeat (constructor;
            [first [intros _; reflexivity
                   |intros H; exfalso; apply H; reflexivity]|]).
    constructor.
  - revert name.
    apply (forall_names (λ n, n ≠ "get_object_metadata" → route n = Some catalog)).
    unfold catalog_module.tool_names.
    repeat (constructor;
            [first [intros _; reflexivity
                   |intros H; exfalso; apply H; reflexivity]|]).
    constructor.
  - revert name. apply forall_names. unfold notebooks_module.tool_names.
    cbn [fmap list_fmap seq].
    repeat (constructor; [reflexivity|]). constructor.
Qed.

Lemma listed_tools_routing_witness :
  route "grant_workspace_access" = Some instance
  ∧ route "notebooks_15" = Some notebooks.
Proof.
  destruct (listed_tools_routing "grant_workspace_access") as (H & _).
  destruct (listed_tools_routing "notebooks_15") as (_ & _ & _ & _ & H').
  split.
  - apply H; [unfold instance_module.tool_names; set_solver|discriminate].
  - apply H'. unfold notebooks_module.tool_names.
    apply list_elem_of_fmap. exists 14%nat. split; [reflexivity|].
    apply elem_of_seq. lia.
Defined.

(** X19: the catalog and notebooks handlers are placeholders that accept
    any name routed to them, listed or not, and any arguments: the server
    answers with a success envelope naming the tool, and nothing but the
    entry into the handler is added to the trace.  Every name that starts
    with "notebooks_" is routed to the notebooks handler. *)
Theorem placeholder_modules_accept_any_name (env : Env) (name : string)
    (arguments : option pydict) (w : World) (m : HandlerModule) :
  (route name = Some m → m = catalog ∨ m = notebooks →
     ∃ envelope w',
       handle_call_tool env name arguments w = (Ok envelope, w')
       ∧ envelope !! "success" = Some (VBool true)
       ∧ lookup2 envelope "data" "tool" = Some (VStr name)
       ∧ trace w' = trace w ++ [EvHandler m name])
  ∧ route ("notebooks_" +:+ name) = Some notebooks.
Proof.
  split.
  - intros Hr [-> | ->]; eexists _, _;
      (split; [unfold handle_call_tool, dispatch; rewrite Hr;
               unfold mbind, M_bind, read_time, try; simpl; reflexivity|]);
      repeat split.
  - destruct name; reflexivity.
Qed.

Lemma placeholder_modules_accept_any_name_witness :
  ∃ envelope w',
    handle_call_tool samples.env_ok "notebooks_999" None samples.w0 =
      (Ok envelope, w')
    ∧ envelope !! "success" = Some (VBool true).
Proof.
  destruct (placeholder_modules_accept_any_name samples.env_ok "notebooks_999"
              None samples.w0 notebooks) as [H _].
  destruct H as (envelope & w' & Hrun & Hs & _);
    [reflexivity|right; reflexivity|].
  exists envelope, w'. split; [exact Hrun|exact Hs].
Defined.

End dispatch_more.

(** ** Closing the client, listing the tools *)

Section close_and_list.
Import observe oci_client event_loop server.

(** X20: [close] never raises; it forgets the cached client of every
    service and changes nothing else, and closing twice is closing once.
    The next access to a service after [close] builds a new client, so a
    service whose client was cached before [close] then has two
    constructions on record: "at most one construction for each service"
    holds between two calls of [close], not across them. *)
Theorem close_forgets_clients (env : Env) (s : Service) (w : World) :
  let w1 := snd (close w) in
  fst (close w) = Ok tt
  ∧ (∀ s', get_client s' (oci w1) = None)
  ∧ settings (oci w1) = settings (oci w)
  ∧ trace w1 = trace w
  ∧ clock_reads w1 = clock_reads w
  ∧ close w1 = (Ok tt, w1)
  ∧ (sdk_new env s (trace w) = None →
       ∃ h w2,
         lazy_client env s w1 = (Ok h, w2)
         ∧ get_client s (oci w2) = Some h
         ∧ constructions s (trace w2) = constructions s (trace w) ++ [h]
         ∧ ∀ h0, consistent w → get_client s (oci w) = Some h0 →
             constructions s (trace w2) = [h0; h] ∧ ¬ consistent w2).
Proof.
  simpl. repeat (split; [try reflexivity; intros s'; destruct s'; reflexivity|]).
  intros Hnew. unfold lazy_client. simpl.
  replace (get_client s (new_client (settings (oci w)))) with (@None Handle)
    by (destruct s; reflexivity).
  rewrite Hnew. eexists _, _. split; [reflexivity|]. simpl.
  split; [apply get_set_same|].
  assert (constructions s (trace w ++ [EvConstruct s (Some (length (trace w)))])
          = constructions s (trace w) ++ [length (trace w)]) as Hc.
  { rewrite constructions_app. simpl.
    destruct (decide (s = s)); [reflexivity|congruence]. }
  cbn [trace oci] in *. split; [exact Hc|].
  intros h0 Hw H0. pose proof (Hw s) as Hs. rewrite H0 in Hs.
  rewrite Hs in Hc. split; [exact Hc|].
  intros Hw2. specialize (Hw2 s). cbn [trace oci] in Hw2.
  rewrite get_set_same in Hw2.
  pose proof (eq_trans (eq_sym Hc) Hw2) as Habs. discriminate Habs.
Qed.

Lemma close_forgets_clients_witness :
  let w := snd (lazy_client samples.env_ok ObjectStorage samples.w0) in
  ∃ h w2,
    lazy_client samples.env_ok ObjectStorage (snd (close w)) = (Ok h, w2)
    ∧ constructions ObjectStorage (trace w2) = [0%nat; h].
Proof.
  intros w.
  destruct (close_forgets_clients samples.env_ok ObjectStorage w)
    as (_ & _ & _ & _ & _ & _ & H).
  destruct (H eq_refl) as (h & w2 & Hrun & _ & _ & Htwo).
  exists h, w2. split; [exact Hrun|].
  apply (Htwo 0%nat); [|reflexivity].
  intros s'; destruct s'; reflexivity.
Defined.






End close_and_list.
